(** * Structured-output chat application: a shallow embedding

    Source: [structured-output/structured_chat_app.py].

    Text is modelled by [string]: a sequence of 8-bit code points (the
    Latin-1 range of Python's [str]); [lower] is Python's [str.lower] on
    that range.  Integers are Python's unbounded [int], modelled by [Z]. *)

From Stdlib Require Import String Ascii List Bool ZArith NArith Lia.
From Stdlib Require Import DecimalString Sorted Permutation.
Import ListNotations.
Open Scope string_scope.

(** ** Text primitives *)

Module Text.

(** [str.lower] on one code point below 256: [A-Z] and the capital
    letters [U+00C0..U+00DE] (but not the multiplication sign [U+00D7])
    move up by 32; every other code point is its own lower case. *)
Definition lower_char (c : ascii) : ascii :=
  let n := N_of_ascii c in
  if ((65 <=? n) && (n <=? 90)
      || (192 <=? n) && (n <=? 222) && negb (n =? 215))%N
  then ascii_of_N (n + 32)
  else c.

Fixpoint lower (s : string) : string :=
  match s with
  | EmptyString => EmptyString
  | String c s' => String (lower_char c) (lower s')
  end.

(** [str.isspace] on one code point below 256. *)
Definition is_space (c : ascii) : bool :=
  let n := N_of_ascii c in
  ((9 <=? n) && (n <=? 13) || (28 <=? n) && (n <=? 32)
   || (n =? 133) || (n =? 160))%N.

Fixpoint all_chars (p : ascii -> bool) (s : string) : bool :=
  match s with
  | EmptyString => true
  | String c s' => p c && all_chars p s'
  end.

(** [w] is an initial segment of [s]. *)
Fixpoint starts_with (w s : string) : bool :=
  match w, s with
  | EmptyString, _ => true
  | String a w', String b s' => Ascii.eqb a b && starts_with w' s'
  | String _ _, EmptyString => false
  end.

(** Python's [w in s] on strings: [w] occurs in [s] at some offset. *)
Fixpoint contains (w s : string) : bool :=
  starts_with w s ||
  match s with
  | EmptyString => false
  | String _ s' => contains w s'
  end.

(** [any(word in s for word in words)] *)
Definition any_in (words : list string) (s : string) : bool :=
  existsb (fun word => contains word s) words.

(** [sep.join(parts)] *)
Fixpoint join (sep : string) (parts : list string) : string :=
  match parts with
  | [] => ""
  | [p] => p
  | p :: rest => p ++ sep ++ join sep rest
  end.

(** [str(n)] / [f"{n}"] for an [int]. *)
Definition str_of_int (n : Z) : string :=
  NilZero.string_of_int (Z.to_int n).

End Text.
Import Text.

(** ** Intent detection *)

Definition tasks_keywords : list string :=
  ["task"; "todo"; "plan"; "schedule"; "organize"].
Definition recipe_keywords : list string :=
  ["recipe"; "cook"; "ingredient"; "dish"; "meal"].
Definition weather_keywords : list string :=
  ["weather"; "forecast"; "temperature"; "rain"; "sunny"].
Definition review_keywords : list string :=
  ["review"; "product"; "rating"; "recommend"; "opinion"].

(** [detect_intent(prompt)] *)
Definition detect_intent (prompt : string) : string :=
  let prompt_lower := lower prompt in
  if any_in tasks_keywords prompt_lower then "tasks"
  else if any_in recipe_keywords prompt_lower then "recipe"
  else if any_in weather_keywords prompt_lower then "weather"
  else if any_in review_keywords prompt_lower then "review"
  else "general".

(** The classifier as the specification words it: an intent label, and
    keyword groups tried in their declared priority order. *)
Inductive Intent :=
| IntentTasks | IntentRecipe | IntentWeather | IntentReview | IntentGeneral.

Definition intent_label (i : Intent) : string :=
  match i with
  | IntentTasks => "tasks"
  | IntentRecipe => "recipe"
  | IntentWeather => "weather"
  | IntentReview => "review"
  | IntentGeneral => "general"
  end.

Definition spec_keyword_groups : list (Intent * list string) :=
  [ (IntentTasks, ["task"; "todo"; "plan"; "schedule"; "organize"]);
    (IntentRecipe, ["recipe"; "cook"; "ingredient"; "dish"; "meal"]);
    (IntentWeather, ["weather"; "forecast"; "temperature"; "rain"; "sunny"]);
    (IntentReview, ["review"; "product"; "rating"; "recommend"; "opinion"]) ].

Fixpoint first_matching (groups : list (Intent * list string))
    (text : string) : Intent :=
  match groups with
  | [] => IntentGeneral
  | (i, kws) :: rest =>
      if existsb (fun kw => contains kw text) kws then i
      else first_matching rest text
  end.

Definition spec_classify (prompt : string) : Intent :=
  first_matching spec_keyword_groups (lower prompt).

(** ** JSON values and [json.dumps] *)

Module Json.

#[local] Set Warnings "-register-all".

Inductive json :=
| JNull
| JBool (b : bool)
| JInt (n : Z)
| JStr (s : string)
| JList (items : list json)
| JDict (fields : list (string * json)).

(** A Python [dict] with string keys, in insertion order. *)
Definition dict := list (string * json).

Definition dquote : string := String (ascii_of_N 34) "".
Definition nl : string := String (ascii_of_N 10) "".

Definition hex_digit (n : N) : ascii :=
  if (n <? 10)%N then ascii_of_N (48 + n) else ascii_of_N (87 + n).

(** One character of a JSON string under [ensure_ascii=True]: the two
    characters that must be escaped, the short escapes, the printable
    ASCII range as it is, and [\u00xx] for everything else. *)
Definition escape_char (c : ascii) : string :=
  let n := N_of_ascii c in
  if (n =? 34)%N then "\" ++ dquote
  else if (n =? 92)%N then "\\"
  else if (n =? 10)%N then "\n"
  else if (n =? 13)%N then "\r"
  else if (n =? 9)%N then "\t"
  else if (n =? 12)%N then "\f"
  else if (n =? 8)%N then "\b"
  else if ((32 <=? n) && (n <=? 126))%N then String c ""
  else "\u00" ++ String (hex_digit (n / 16)) (String (hex_digit (n mod 16)) "").

Fixpoint escape (s : string) : string :=
  match s with
  | EmptyString => ""
  | String c s' => escape_char c ++ escape s'
  end.

Definition quote (s : string) : string := dquote ++ escape s ++ dquote.

(** [json.dumps(v)] with the default separators. *)
Fixpoint dumps (v : json) : string :=
  match v with
  | JNull => "null"
  | JBool true => "true"
  | JBool false => "false"
  | JInt n => str_of_int n
  | JStr s => quote s
  | JList items => "[" ++ join ", " (map dumps items) ++ "]"
  | JDict fields =>
      "{" ++ join ", " (map (fun '(k, x) => quote k ++ ": " ++ dumps x) fields)
          ++ "}"
  end.

(** Truth value of an optional [dict]: [None] and [{}] are false. *)
Definition truthy (d : option dict) : bool :=
  match d with
  | None => false
  | Some [] => false
  | Some (_ :: _) => true
  end.

End Json.
Import Json.

(** ** Structured output models and [model_dump] *)

Inductive TaskPriority := LOW | MEDIUM | HIGH | URGENT.

Definition TaskPriority_value (p : TaskPriority) : string :=
  match p with
  | LOW => "low" | MEDIUM => "medium" | HIGH => "high" | URGENT => "urgent"
  end.

Record Task := {
  task_title : string;
  task_description : string;
  task_priority : TaskPriority;
  task_estimated_time : string;
  task_category : string }.

Record TaskList := {
  tasks : list Task;
  total_tasks : Z;
  tasklist_summary : string }.

Record RecipeIngredient := {
  ingredient_name : string;
  ingredient_amount : string;
  ingredient_notes : option string }.

Inductive Difficulty := Easy | Medium | Hard.

Definition Difficulty_value (d : Difficulty) : string :=
  match d with Easy => "easy" | Medium => "medium" | Hard => "hard" end.

Record Recipe := {
  recipe_name : string;
  recipe_description : string;
  prep_time : string;
  cook_time : string;
  servings : Z;
  difficulty : Difficulty;
  ingredients : list RecipeIngredient;
  instructions : list string }.

Inductive WeatherCondition := SUNNY | CLOUDY | RAINY | SNOWY | STORMY | FOGGY.

Definition WeatherCondition_value (c : WeatherCondition) : string :=
  match c with
  | SUNNY => "sunny" | CLOUDY => "cloudy" | RAINY => "rainy"
  | SNOWY => "snowy" | STORMY => "stormy" | FOGGY => "foggy"
  end.

Record WeatherForecast := {
  location : string;
  current_condition : WeatherCondition;
  temperature : string;
  humidity : string;
  wind_speed : string;
  forecast_summary : string;
  recommendations : list string }.

(** [rating] carries the field constraint [ge=1, le=5]; a validated
    instance satisfies it, the record itself does not enforce it. *)
Record ProductReview := {
  product_name : string;
  rating : Z;
  pros : list string;
  cons : list string;
  review_summary : string;
  recommendation : bool }.

Definition dump_Task (t : Task) : dict :=
  [ ("title", JStr (task_title t));
    ("description", JStr (task_description t));
    ("priority", JStr (TaskPriority_value (task_priority t)));
    ("estimated_time", JStr (task_estimated_time t));
    ("category", JStr (task_category t)) ].

Definition dump_TaskList (l : TaskList) : dict :=
  [ ("tasks", JList (map (fun t => JDict (dump_Task t)) (tasks l)));
    ("total_tasks", JInt (total_tasks l));
    ("summary", JStr (tasklist_summary l)) ].

Definition dump_RecipeIngredient (i : RecipeIngredient) : dict :=
  [ ("name", JStr (ingredient_name i));
    ("amount", JStr (ingredient_amount i));
    ("notes", match ingredient_notes i with
              | Some s => JStr s
              | None => JNull
              end) ].

Definition dump_Recipe (r : Recipe) : dict :=
  [ ("name", JStr (recipe_name r));
    ("description", JStr (recipe_description r));
    ("prep_time", JStr (prep_time r));
    ("cook_time", JStr (cook_time r));
    ("servings", JInt (servings r));
    ("difficulty", JStr (Difficulty_value (difficulty r)));
    ("ingredients",
      JList (map (fun i => JDict (dump_RecipeIngredient i)) (ingredients r)));
    ("instructions", JList (map JStr (instructions r))) ].

Definition dump_WeatherForecast (w : WeatherForecast) : dict :=
  [ ("location", JStr (location w));
    ("current_condition", JStr (WeatherCondition_value (current_condition w)));
    ("temperature", JStr (temperature w));
    ("humidity", JStr (humidity w));
    ("wind_speed", JStr (wind_speed w));
    ("forecast_summary", JStr (forecast_summary w));
    ("recommendations", JList (map JStr (recommendations w))) ].

Definition dump_ProductReview (p : ProductReview) : dict :=
  [ ("product_name", JStr (product_name p));
    ("rating", JInt (rating p));
    ("pros", JList (map JStr (pros p)));
    ("cons", JList (map JStr (cons p)));
    ("summary", JStr (review_summary p));
    ("recommendation", JBool (recommendation p)) ].

(** ** Conversation messages (the subset of [pydantic_ai.messages] the
    application inspects) *)

(** [UserPromptPart.content] is a [str] or a sequence of content items. *)
Inductive UserContent :=
| StrContent (s : string)
| MultiContent.

(** A time stamp is represented by its [isoformat()] text. *)
Definition datetime := string.

Inductive Part :=
| UserPromptPart (content : UserContent) (timestamp : datetime)
| TextPart (content : string)
| OtherPart (part_kind : string).

Inductive ModelMessage :=
| ModelRequest (parts : list Part)
| ModelResponse (parts : list Part) (timestamp : datetime).

Definition parts_of (m : ModelMessage) : list Part :=
  match m with
  | ModelRequest ps => ps
  | ModelResponse ps _ => ps
  end.

(** [ChatMessage]: format of messages sent to the browser. *)
Record ChatMessage := {
  role : string;
  timestamp : string;
  content : string;
  message_type : string;
  structured_data : option dict }.

(** The [dict] literal the application builds for a [ChatMessage]. *)
Definition chat_dict (m : ChatMessage) : dict :=
  [ ("role", JStr (role m));
    ("timestamp", JStr (timestamp m));
    ("content", JStr (content m));
    ("message_type", JStr (message_type m));
    ("structured_data", match structured_data m with
                        | Some d => JDict d
                        | None => JNull
                        end) ].

(** ** Exceptions and results *)

(** A raised exception: its class name, whether the class derives from
    [Exception] (what [except Exception] catches; [CancelledError] and
    the like do not), and [str(e)]. *)
Record exn := {
  exn_class : string;
  is_Exception : bool;
  exn_str : string }.

Inductive res (A : Type) :=
| Ok (a : A)
| Raise (e : exn).
Arguments Ok {A} a.
Arguments Raise {A} e.

Definition IndexError : exn :=
  {| exn_class := "IndexError"; is_Exception := true;
     exn_str := "list index out of range" |}.
Definition AssertionError : exn :=
  {| exn_class := "AssertionError"; is_Exception := true; exn_str := "" |}.
Definition UnexpectedModelBehavior (msg : string) : exn :=
  {| exn_class := "UnexpectedModelBehavior"; is_Exception := true;
     exn_str := msg |}.

(** The result of an agent run: [result.data] and
    [result.new_messages_json()]. *)
Record RunResult (T : Type) := {
  data : T;
  new_messages_json : string }.
Arguments data {T} r.
Arguments new_messages_json {T} r.

(** ** The environment of a request

    Everything outside the application: the five agents, the message
    type adapter, the clock, [repr] of a message, and whether SQLite
    raises on the next statement of each kind. *)
Record Env := {
  task_agent : string -> list ModelMessage -> res (RunResult TaskList);
  recipe_agent : string -> list ModelMessage -> res (RunResult Recipe);
  weather_agent :
    string -> list ModelMessage -> res (RunResult WeatherForecast);
  review_agent : string -> list ModelMessage -> res (RunResult ProductReview);
  general_agent : string -> list ModelMessage -> res (RunResult string);
  validate_json : string -> res (list ModelMessage);
  utc_now : nat -> datetime;
  repr_message : ModelMessage -> string;
  select_error : option exn;
  insert_error : option exn }.

(** ** The [messages] table *)

Module Table.

(** A row of [messages (id INTEGER PRIMARY KEY, message_list TEXT)]. *)
Definition row := (Z * string)%type.
Definition table := list row.

(** The row id SQLite gives an [INSERT] without an explicit id: 1 in an
    empty table, otherwise one more than the largest id in use.  Ids are
    unbounded here: the table never reaches the largest 64-bit id. *)
Definition next_id (t : table) : Z :=
  match t with
  | [] => 1%Z
  | r :: rest => (fold_right (fun r m => Z.max (fst r) m) (fst r) rest + 1)%Z
  end.

(** [INSERT INTO messages (message_list) VALUES (?)] *)
Definition insert (t : table) (message_list : string) : table :=
  (t ++ [(next_id t, message_list)])%list.

Fixpoint insert_sorted (r : row) (sorted : list row) : list row :=
  match sorted with
  | [] => [r]
  | r' :: rest =>
      if (fst r <? fst r')%Z then r :: r' :: rest
      else r' :: insert_sorted r rest
  end.

Definition order_by_id (t : table) : list row :=
  fold_left (fun acc r => insert_sorted r acc) t [].

(** [SELECT message_list FROM messages order by id] *)
Definition select_message_list (t : table) : list string :=
  map snd (order_by_id t).

End Table.
Import Table.

(** ** Messages sent by [POST /chat/] *)

(** The three [dict] literals of [stream_messages]: the echoed prompt,
    [response_message] and [error_message]. *)
Definition user_message (t : datetime) (prompt : string) : ChatMessage :=
  {| role := "user"; timestamp := t; content := prompt;
     message_type := "text"; structured_data := None |}.

Definition response_message (t : datetime) (content : string)
    (structured_data : option dict) : ChatMessage :=
  {| role := "model"; timestamp := t; content := content;
     message_type := if truthy structured_data then "structured" else "text";
     structured_data := structured_data |}.

Definition error_message (t : datetime) (e : exn) : ChatMessage :=
  {| role := "model"; timestamp := t;
     content := "Sorry, I encountered an error: " ++ exn_str e;
     message_type := "text"; structured_data := None |}.

(** ** The request monad: state, observable events and exceptions *)

(** What a request does that an observer can see, in program order. *)
Inductive event :=
| EvYield (m : ChatMessage)
| EvDetectIntent (prompt : string)
| EvSelect
| EvAgentRun (agent : string) (user_prompt : string)
    (message_history : list ModelMessage)
| EvInsert (message_list : string).

Record World := {
  rows : table;
  ticks : nat;
  trace : list event }.

Definition M (A : Type) : Type := World -> res A * World.

Definition ret {A} (a : A) : M A := fun w => (Ok a, w).

Definition bind {A B} (c : M A) (k : A -> M B) : M B :=
  fun w =>
    match c w with
    | (Ok a, w') => k a w'
    | (Raise e, w') => (Raise e, w')
    end.

Definition raise {A} (e : exn) : M A := fun w => (Raise e, w).

Definition lift {A} (r : res A) : M A := fun w => (r, w).

(** [try: body  except Exception as e: handler(e)]: state changes made
    by the body before it raised stay. *)
Definition try_except {A} (body : M A) (handler : exn -> M A) : M A :=
  fun w =>
    match body w with
    | (Ok a, w') => (Ok a, w')
    | (Raise e, w') =>
        if is_Exception e then handler e w' else (Raise e, w')
    end.

Declare Scope monad_scope.
Delimit Scope monad_scope with monad.
Notation "x <- c ;; k" := (bind c (fun x => k))
  (at level 61, c at next level, right associativity) : monad_scope.
Notation "c ;; k" := (bind c (fun _ => k))
  (at level 61, right associativity) : monad_scope.
Notation "' pat <- c ;; k" :=
  (bind c (fun x => match x with pat => k end))
  (at level 61, pat pattern, c at next level, right associativity)
  : monad_scope.
Open Scope monad_scope.

Definition log (e : event) : M unit :=
  fun w => (Ok tt, {| rows := rows w; ticks := ticks w;
                      trace := (trace w ++ [e])%list |}).

(** [yield json.dumps(m).encode('utf-8') + b'\n'] *)
Definition yield_ (m : ChatMessage) : M unit := log (EvYield m).

(** [json.dumps(m).encode('utf-8')]: with [ensure_ascii] the text is
    ASCII, and its bytes are its characters. *)
Definition chat_line (m : ChatMessage) : string :=
  dumps (JDict (chat_dict m)).

(** The bytes a yielded message puts on the wire. *)
Definition encode_line (m : ChatMessage) : string :=
  chat_line m ++ nl.

Section Application.

Variable env : Env.

(** [datetime.now(tz=timezone.utc).isoformat()] *)
Definition now_isoformat : M datetime :=
  fun w => (Ok (utc_now env (ticks w)),
            {| rows := rows w; ticks := S (ticks w); trace := trace w |}).

(** *** Database *)

(** The loop of [get_messages]: [messages.extend(validate_json(row[0]))]
    for each row. *)
Fixpoint extend_rows (rs : list string) (messages : list ModelMessage)
    : res (list ModelMessage) :=
  match rs with
  | [] => Ok messages
  | r :: rest =>
      match validate_json env r with
      | Ok ms => extend_rows rest (messages ++ ms)%list
      | Raise e => Raise e
      end
  end.

Definition get_messages : M (list ModelMessage) :=
  log EvSelect ;;
  match select_error env with
  | Some e => raise e
  | None =>
      fun w => (extend_rows (select_message_list (rows w)) [], w)
  end.

Definition add_messages (messages : string) : M unit :=
  log (EvInsert messages) ;;
  match insert_error env with
  | Some e => raise e
  | None =>
      fun w => (Ok tt, {| rows := insert (rows w) messages;
                          ticks := ticks w; trace := trace w |})
  end.

(** *** [to_chat_message] *)

Definition to_chat_message (m : ModelMessage) : res ChatMessage :=
  match parts_of m with
  | [] => Raise IndexError
  | first_part :: _ =>
      let unexpected :=
        Raise (UnexpectedModelBehavior
                 ("Unexpected message type for chat app: "
                    ++ repr_message env m)) in
      match m with
      | ModelRequest _ =>
          match first_part with
          | UserPromptPart c ts =>
              match c with
              | StrContent s =>
                  Ok {| role := "user"; timestamp := ts; content := s;
                        message_type := "text"; structured_data := None |}
              | MultiContent => Raise AssertionError
              end
          | _ => unexpected
          end
      | ModelResponse _ ts =>
          match first_part with
          | TextPart s =>
              Ok {| role := "model"; timestamp := ts; content := s;
                    message_type := "text"; structured_data := None |}
          | _ => unexpected
          end
      end
  end.

Fixpoint map_res {A B} (f : A -> res B) (l : list A) : res (list B) :=
  match l with
  | [] => Ok []
  | a :: rest =>
      match f a with
      | Raise e => Raise e
      | Ok b =>
          match map_res f rest with
          | Raise e => Raise e
          | Ok bs => Ok (b :: bs)
          end
      end
  end.

(** [GET /chat/]: the response body, or the exception that fails the
    request. *)
Definition get_chat : M string :=
  msgs <- get_messages ;;
  chat <- lift (map_res to_chat_message msgs) ;;
  ret (join nl (map chat_line chat)).

(** *** [POST /chat/] *)

Definition run_agent {T} (name : string)
    (agent : string -> list ModelMessage -> res (RunResult T))
    (user_prompt : string) (message_history : list ModelMessage)
    : M (RunResult T) :=
  log (EvAgentRun name user_prompt message_history) ;;
  lift (agent user_prompt message_history).

(** The branch of [stream_messages] chosen by the intent: it returns
    [structured_data], [content] and [result.new_messages_json()]. *)
Definition dispatch (intent prompt : string) (messages : list ModelMessage)
    : M (option dict * string * string) :=
  if intent =? "tasks" then
    result <- run_agent "task_agent" (task_agent env)
      ("Create a task list based on this request: " ++ prompt) messages ;;
    ret (Some (dump_TaskList (data result)),
         "I've created a structured task list for you with "
           ++ str_of_int (total_tasks (data result)) ++ " tasks.",
         new_messages_json result)
  else if intent =? "recipe" then
    result <- run_agent "recipe_agent" (recipe_agent env)
      ("Provide a recipe based on this request: " ++ prompt) messages ;;
    ret (Some (dump_Recipe (data result)),
         "Here's a " ++ Difficulty_value (difficulty (data result))
           ++ " recipe for " ++ recipe_name (data result)
           ++ " (serves " ++ str_of_int (servings (data result)) ++ ").",
         new_messages_json result)
  else if intent =? "weather" then
    result <- run_agent "weather_agent" (weather_agent env)
      ("Provide a weather forecast based on this request: " ++ prompt
         ++ ". Note: This is a demo - provide realistic but fictional weather data.")
      messages ;;
    ret (Some (dump_WeatherForecast (data result)),
         "Here's the weather forecast for " ++ location (data result) ++ ".",
         new_messages_json result)
  else if intent =? "review" then
    result <- run_agent "review_agent" (review_agent env)
      ("Provide a product review based on this request: " ++ prompt)
      messages ;;
    ret (Some (dump_ProductReview (data result)),
         "Here's a structured review for " ++ product_name (data result)
           ++ " (" ++ str_of_int (rating (data result)) ++ "/5 stars).",
         new_messages_json result)
  else
    result <- run_agent "general_agent" (general_agent env) prompt messages ;;
    ret (None, data result, new_messages_json result).

Definition stream_messages (prompt : string) : M unit :=
  t <- now_isoformat ;;
  yield_ (user_message t prompt) ;;
  log (EvDetectIntent prompt) ;;
  let intent := detect_intent prompt in
  messages <- get_messages ;;
  try_except
    ( '(structured_data, content, new_json) <-
         dispatch intent prompt messages ;;
      t <- now_isoformat ;;
      yield_ (response_message t content structured_data) ;;
      add_messages new_json )
    (fun e =>
       t <- now_isoformat ;;
       yield_ (error_message t e)).

(** The outcome of the agent call of [dispatch], and the events it
    leaves, seen from a fresh world. *)
Definition dispatch_result (intent prompt : string)
    (messages : list ModelMessage) : res (option dict * string * string) :=
  fst (dispatch intent prompt messages
         {| rows := []; ticks := 0; trace := [] |}).

Definition dispatch_events (intent prompt : string)
    (messages : list ModelMessage) : list event :=
  trace (snd (dispatch intent prompt messages
                {| rows := []; ticks := 0; trace := [] |})).

End Application.

(** A request starts with the table as stored, a clock position, and
    nothing observed yet. *)
Definition start (t : table) (tick : nat) : World :=
  {| rows := t; ticks := tick; trace := [] |}.

(** What [POST /chat/] has put on the wire: a line per yielded message. *)
Fixpoint yielded (tr : list event) : list ChatMessage :=
  match tr with
  | [] => []
  | EvYield m :: rest => m :: yielded rest
  | _ :: rest => yielded rest
  end.

Definition post_chat_body (tr : list event) : string :=
  fold_right (fun m body => encode_line m ++ body) "" (yielded tr).

Fixpoint inserts (tr : list event) : list string :=
  match tr with
  | [] => []
  | EvInsert p :: rest => p :: inserts rest
  | _ :: rest => inserts rest
  end.

(** [w] occurs somewhere in [s]. *)
Definition occurs_in (w s : string) : Prop :=
  exists a b, s = a ++ w ++ b.

(** At least one keyword of the group occurs in the text. *)
Definition group_matches (keywords : list string) (text : string) : Prop :=
  exists kw, In kw keywords /\ occurs_in kw text.

(** The lines of a response body: none for an empty body, otherwise the
    pieces between newline characters. *)
Fixpoint split_nl (s : string) : string * list string :=
  match s with
  | EmptyString => ("", [])
  | String c s' =>
      let '(line, more) := split_nl s' in
      if Ascii.eqb c (ascii_of_N 10) then ("", line :: more)
      else (String c line, more)
  end.

Definition body_lines (body : string) : list string :=
  match body with
  | EmptyString => []
  | _ => let '(line, more) := split_nl body in line :: more
  end.

Definition no_newline (s : string) : bool :=
  all_chars (fun c => negb (Ascii.eqb c (ascii_of_N 10))) s.

(** A stored message that [to_chat_message] renders: a request whose
    first part is a user prompt with text content, or a response whose
    first part is text. *)
Definition renderable (m : ModelMessage) : bool :=
  match m with
  | ModelRequest (UserPromptPart (StrContent _) _ :: _) => true
  | ModelResponse (TextPart _ :: _) _ => true
  | _ => false
  end.

(** ** A concrete environment, for running the model on examples *)

Module Demo.

Definition ValidationError : exn :=
  {| exn_class := "ValidationError"; is_Exception := true;
     exn_str := "Invalid JSON" |}.

Definition ConnectError : exn :=
  {| exn_class := "ConnectError"; is_Exception := true;
     exn_str := "connection refused" |}.


(** A toy adapter: the row ["corrupt"] does not parse, the row ["tool"]
    holds an exchange answered by a tool call, any other row holds its
    own text as a prompt and an answer to it. *)
Definition adapter (row : string) : res (list ModelMessage) :=
  if row =? "corrupt" then Raise ValidationError
  else if row =? "tool" then
    Ok [ ModelRequest [UserPromptPart (StrContent "q") "t0"];
         ModelResponse [OtherPart "tool-call"] "t1" ]
  else
    Ok [ ModelRequest [UserPromptPart (StrContent row) "t0"];
         ModelResponse [TextPart ("re: " ++ row)] "t1" ].

Definition answering {T} (d : T) (failure : option exn)
    (user_prompt : string) (history : list ModelMessage)
    : res (RunResult T) :=
  match failure with
  | Some e => Raise e
  | None => Ok {| data := d; new_messages_json := user_prompt |}
  end.

Definition three_tasks : TaskList :=
  {| tasks := []; total_tasks := 3; tasklist_summary := "week" |}.

Definition soup : Recipe :=
  {| recipe_name := "Soup"; recipe_description := "warm"; prep_time := "5 min";
     cook_time := "20 min"; servings := 4; difficulty := Easy;
     ingredients := []; instructions := [] |}.

Definition paris : WeatherForecast :=
  {| location := "Paris"; current_condition := SUNNY; temperature := "21 C";
     humidity := "40%"; wind_speed := "10 km/h"; forecast_summary := "fine";
     recommendations := [] |}.

Definition blender : ProductReview :=
  {| product_name := "Blender"; rating := 4; pros := []; cons := [];
     review_summary := "good"; recommendation := true |}.

Definition clock (n : nat) : datetime :=
  match n with
  | O => "2025-01-01T00:00:00+00:00"
  | S O => "2025-01-01T00:00:01+00:00"
  | _ => "2025-01-01T00:00:02+00:00"
  end.

(** [reply] is the general agent's text; [failure] makes every agent
    raise; [sel] and [ins] make SQLite raise. *)
Definition env (reply : string) (failure sel ins : option exn) : Env :=
  {| task_agent := answering three_tasks failure;
     recipe_agent := answering soup failure;
     weather_agent := answering paris failure;
     review_agent := answering blender failure;
     general_agent := answering reply failure;
     validate_json := adapter;
     utc_now := clock;
     repr_message := fun _ => "<message>";
     select_error := sel;
     insert_error := ins |}.

Definition healthy : Env := env "Hello!" None None None.

End Demo.

(** The agent calls of a trace: agent, prompt given to it, history. *)
Fixpoint agent_runs (tr : list event)
    : list (string * string * list ModelMessage) :=
  match tr with
  | [] => []
  | EvAgentRun agent user_prompt history :: rest =>
      (agent, user_prompt, history) :: agent_runs rest
  | _ :: rest => agent_runs rest
  end.

(** Ids in ascending order, without repetition. *)
Definition ascending (l : list row) : Prop :=
  StronglySorted (fun a b => (fst a < fst b)%Z) l.

(** Printable ASCII only: every character is in the range 32..126. *)
Definition printable (s : string) : bool :=
  all_chars (fun c => (32 <=? N_of_ascii c)%N && (N_of_ascii c <=? 126)%N) s.

(** Reading back the first escaped character of a JSON string body
    (what a JSON parser does with the output of [escape]); a raw double
    quote ends the string and is not a character of it. *)
Definition unhex (c : ascii) : option N :=
  let n := N_of_ascii c in
  if ((48 <=? n) && (n <=? 57))%N then Some (n - 48)%N
  else if ((97 <=? n) && (n <=? 102))%N then Some (n - 87)%N
  else None.

Definition unescape_head (s : string) : option (ascii * string) :=
  match s with
  | EmptyString => None
  | String c rest =>
      if (N_of_ascii c =? 34)%N then None
      else if (N_of_ascii c =? 92)%N then
        match rest with
        | EmptyString => None
        | String e rest' =>
            let m := N_of_ascii e in
            if (m =? 34)%N then Some (ascii_of_N 34, rest')
            else if (m =? 92)%N then Some (ascii_of_N 92, rest')
            else if (m =? 110)%N then Some (ascii_of_N 10, rest')
            else if (m =? 114)%N then Some (ascii_of_N 13, rest')
            else if (m =? 116)%N then Some (ascii_of_N 9, rest')
            else if (m =? 102)%N then Some (ascii_of_N 12, rest')
            else if (m =? 98)%N then Some (ascii_of_N 8, rest')
            else if (m =? 117)%N then
              match rest' with
              | String _ (String _ (String h (String l rest''))) =>
                  match unhex h, unhex l with
                  | Some a, Some b => Some (ascii_of_N (16 * a + b), rest'')
                  | _, _ => None
                  end
              | _ => None
              end
            else None
        end
      else Some (c, rest)
  end.

(** * Properties *)

(** ** Text *)

Section TextFacts.

Lemma starts_with_iff (w s : string) :
  starts_with w s = true <-> exists b, s = w ++ b.
Proof.
  revert s. induction w as [|c w IH]; intros s; simpl.
  - split; [intros _; now exists s | reflexivity].
  - destruct s as [|d s].
    + split; [discriminate | intros [b Hb]; discriminate].
    + rewrite andb_true_iff, IH, Ascii.eqb_eq. split.
      * intros [-> [b ->]]. now exists b.
      * intros [b Hb]. injection Hb as -> ->. split; [reflexivity |].
        now exists b.
Qed.

Lemma contains_iff (w s : string) :
  contains w s = true <-> occurs_in w s.
Proof.
  unfold occurs_in. induction s as [|d s IH]; simpl.
  - rewrite orb_false_r, starts_with_iff. split.
    + intros [b Hb]. now exists "", b.
    + intros [[|x a] [b Hb]]; [now exists b | discriminate].
  - rewrite orb_true_iff, starts_with_iff, IH. split.
    + intros [[b Hb] | [a [b Hb]]].
      * now exists "", b.
      * exists (String d a), b. simpl. now rewrite Hb.
    + intros [[|x a] [b Hb]].
      * left. now exists b.
      * right. exists a, b. simpl in Hb. now injection Hb.
Qed.

Lemma any_in_iff (keywords : list string) (text : string) :
  any_in keywords text = true <-> group_matches keywords text.
Proof.
  unfold any_in, group_matches. rewrite existsb_exists.
  split; intros [kw [Hin H]]; exists kw; split; trivial;
    now apply contains_iff.
Qed.

Lemma any_in_false_iff (keywords : list string) (text : string) :
  any_in keywords text = false <-> ~ group_matches keywords text.
Proof.
  rewrite <- any_in_iff. destruct (any_in keywords text); split;
    congruence.
Qed.

Lemma lower_app (a b : string) : lower (a ++ b) = lower a ++ lower b.
Proof. induction a as [|c a IH]; simpl; [reflexivity | now rewrite IH]. Qed.

Lemma occurs_in_lower (w s : string) :
  occurs_in w s -> occurs_in (lower w) (lower s).
Proof.
  intros [a [b ->]]. exists (lower a), (lower b).
  now rewrite !lower_app.
Qed.

Lemma all_chars_app (p : ascii -> bool) (a b : string) :
  all_chars p (a ++ b) = all_chars p a && all_chars p b.
Proof.
  induction a as [|c a IH]; simpl; [reflexivity |].
  now rewrite IH, andb_assoc.
Qed.

Lemma occurs_in_all_chars (p : ascii -> bool) (w s : string) :
  occurs_in w s -> all_chars p s = true -> all_chars p w = true.
Proof.
  intros [a [b ->]]. rewrite !all_chars_app, !andb_true_iff. tauto.
Qed.

Lemma lower_char_space (c : ascii) :
  is_space c = true -> lower_char c = c.
Proof.
  destruct c as [[] [] [] [] [] [] [] []]; vm_compute; congruence.
Qed.

Lemma lower_spaces (s : string) :
  all_chars is_space s = true -> lower s = s.
Proof.
  induction s as [|c s IH]; simpl; [reflexivity |].
  rewrite andb_true_iff. intros [Hc Hs].
  now rewrite (lower_char_space c Hc), IH.
Qed.

Lemma spaces_match_no_group (keywords : list string) (text : string) :
  forallb (fun kw => negb (all_chars is_space kw)) keywords = true ->
  all_chars is_space text = true ->
  any_in keywords text = false.
Proof.
  intros Hkw Htext. apply any_in_false_iff. intros [kw [Hin Hocc]].
  rewrite forallb_forall in Hkw. specialize (Hkw kw Hin).
  now rewrite (occurs_in_all_chars _ _ _ Hocc Htext) in Hkw.
Qed.

End TextFacts.

(** ** Intent detection *)

Lemma detect_intent_cases (prompt : string) :
  detect_intent prompt =
    (if any_in tasks_keywords (lower prompt) then "tasks"
     else if any_in recipe_keywords (lower prompt) then "recipe"
     else if any_in weather_keywords (lower prompt) then "weather"
     else if any_in review_keywords (lower prompt) then "review"
     else "general").
Proof. reflexivity. Qed.

Lemma spec_classify_cases (prompt : string) :
  spec_classify prompt =
    (if any_in tasks_keywords (lower prompt) then IntentTasks
     else if any_in recipe_keywords (lower prompt) then IntentRecipe
     else if any_in weather_keywords (lower prompt) then IntentWeather
     else if any_in review_keywords (lower prompt) then IntentReview
     else IntentGeneral).
Proof. reflexivity. Qed.

(** C1. [detect_intent] tries the keyword groups in the fixed order
    tasks, recipe, weather, review on the lowercased prompt and returns
    the first group with a keyword occurring in it, and [general] when
    no group matches.  A prompt that contains a tasks keyword is
    classified [tasks] whatever else it contains, and an empty or
    whitespace-only prompt is classified [general]. *)
Theorem detect_intent_priority_order (prompt : string) :
  let text := lower prompt in
  (group_matches tasks_keywords text -> detect_intent prompt = "tasks") /\
  (~ group_matches tasks_keywords text ->
   group_matches recipe_keywords text -> detect_intent prompt = "recipe") /\
  (~ group_matches tasks_keywords text ->
   ~ group_matches recipe_keywords text ->
   group_matches weather_keywords text -> detect_intent prompt = "weather") /\
  (~ group_matches tasks_keywords text ->
   ~ group_matches recipe_keywords text ->
   ~ group_matches weather_keywords text ->
   group_matches review_keywords text -> detect_intent prompt = "review") /\
  (~ group_matches tasks_keywords text ->
   ~ group_matches recipe_keywords text ->
   ~ group_matches weather_keywords text ->
   ~ group_matches review_keywords text -> detect_intent prompt = "general") /\
  (group_matches tasks_keywords prompt -> detect_intent prompt = "tasks") /\
  (all_chars is_space prompt = true -> detect_intent prompt = "general") /\
  detect_intent "" = "general".
Proof.
  intros text. subst text. rewrite detect_intent_cases.
  repeat split.
  - intros H. apply any_in_iff in H. now rewrite H.
  - intros H1 H2. apply any_in_false_iff in H1. apply any_in_iff in H2.
    now rewrite H1, H2.
  - intros H1 H2 H3. apply any_in_false_iff in H1, H2.
    apply any_in_iff in H3. now rewrite H1, H2, H3.
  - intros H1 H2 H3 H4. apply any_in_false_iff in H1, H2, H3.
    apply any_in_iff in H4. now rewrite H1, H2, H3, H4.
  - intros H1 H2 H3 H4. apply any_in_false_iff in H1, H2, H3, H4.
    now rewrite H1, H2, H3, H4.
  - intros [kw [Hin Hocc]].
    assert (Hl : lower kw = kw).
    { simpl in Hin. repeat destruct Hin as [<- | Hin]; try reflexivity.
      contradiction. }
    assert (H : any_in tasks_keywords (lower prompt) = true).
    { apply any_in_iff. exists kw. split; [exact Hin |].
      rewrite <- Hl. now apply occurs_in_lower. }
    now rewrite H.
  - intros Hsp. rewrite (lower_spaces _ Hsp).
    now rewrite !(spaces_match_no_group _ prompt) by (reflexivity || exact Hsp).
Qed.

Lemma detect_intent_priority_order_witness :
  detect_intent "Plan a meal for a rainy day" = "tasks"
  /\ detect_intent "   " = "general".
Proof.
  split.
  - apply (proj1 (detect_intent_priority_order "Plan a meal for a rainy day")).
    exists "plan". split; [simpl; tauto |].
    exists "", " a meal for a rainy day". reflexivity.
  - destruct (detect_intent_priority_order "   ")
      as (_ & _ & _ & _ & _ & _ & Hspace & _).
    apply Hspace. reflexivity.
Defined.

(** C10. The keyword sets are the four literal lists, [detect_intent]
    computes the specification's classifier (first group, in the order
    tasks, recipe, weather, review, with a keyword occurring in the
    lowercased prompt, else general), and a prompt in which "opinion" or
    "recommend" occurs and no keyword of a group of higher priority does
    is classified [review]. *)
Theorem detect_intent_refines_spec_classify (prompt : string) :
  (tasks_keywords = ["task"; "todo"; "plan"; "schedule"; "organize"]
   /\ recipe_keywords = ["recipe"; "cook"; "ingredient"; "dish"; "meal"]
   /\ weather_keywords =
        ["weather"; "forecast"; "temperature"; "rain"; "sunny"]
   /\ review_keywords =
        ["review"; "product"; "rating"; "recommend"; "opinion"])
  /\ detect_intent prompt = intent_label (spec_classify prompt)
  /\ (forall kw, kw = "opinion" \/ kw = "recommend" ->
      occurs_in kw (lower prompt) ->
      ~ group_matches tasks_keywords (lower prompt) ->
      ~ group_matches recipe_keywords (lower prompt) ->
      ~ group_matches weather_keywords (lower prompt) ->
      detect_intent prompt = "review" /\ spec_classify prompt = IntentReview).
Proof.
  split; [repeat split |]. split.
  - rewrite detect_intent_cases, spec_classify_cases.
    destruct (any_in tasks_keywords (lower prompt)); [reflexivity |].
    destruct (any_in recipe_keywords (lower prompt)); [reflexivity |].
    destruct (any_in weather_keywords (lower prompt)); [reflexivity |].
    destruct (any_in review_keywords (lower prompt)); reflexivity.
  - intros kw Hkw Hocc H1 H2 H3.
    assert (H4 : group_matches review_keywords (lower prompt)).
    { exists kw. split; [| exact Hocc].
      destruct Hkw as [-> | ->]; simpl; tauto. }
    apply any_in_false_iff in H1, H2, H3. apply any_in_iff in H4.
    split.
    + now rewrite detect_intent_cases, H1, H2, H3, H4.
    + now rewrite spec_classify_cases, H1, H2, H3, H4.
Qed.

Lemma detect_intent_refines_spec_classify_witness :
  detect_intent "In your OPINION, is it good?" = "review"
  /\ spec_classify "In your OPINION, is it good?" = IntentReview.
Proof.
  apply (proj2 (proj2 (detect_intent_refines_spec_classify
                         "In your OPINION, is it good?")) "opinion").
  - now left.
  - exists "in your ", ", is it good?". reflexivity.
  - apply any_in_false_iff. reflexivity.
  - apply any_in_false_iff. reflexivity.
  - apply any_in_false_iff. reflexivity.
Defined.

(** ** The message store *)

Section StoreFacts.

Variable env : Env.

Lemma insert_sorted_In (r x : row) (l : list row) :
  In x (insert_sorted r l) <-> x = r \/ In x l.
Proof.
  induction l as [|r' l IH]; simpl.
  - intuition congruence.
  - destruct (fst r <? fst r')%Z; simpl; [intuition congruence |].
    rewrite IH. intuition congruence.
Qed.

Lemma order_by_id_snoc (t : table) (r : row) :
  order_by_id (t ++ [r])%list = insert_sorted r (order_by_id t).
Proof. unfold order_by_id. now rewrite fold_left_app. Qed.

Lemma order_by_id_In (t : table) (x : row) :
  In x (order_by_id t) <-> In x t.
Proof.
  induction t as [|r t IH] using rev_ind.
  - reflexivity.
  - rewrite order_by_id_snoc, insert_sorted_In, in_app_iff, IH.
    simpl. intuition congruence.
Qed.

Lemma insert_sorted_last (r : row) (l : list row) :
  (forall x, In x l -> (fst x <= fst r)%Z) ->
  insert_sorted r l = (l ++ [r])%list.
Proof.
  induction l as [|r' l IH]; intros Hle; simpl; [reflexivity |].
  destruct (Z.ltb_spec (fst r) (fst r')) as [Hlt | _].
  - specialize (Hle r' (or_introl eq_refl)). lia.
  - rewrite IH; [reflexivity |]. intros x Hx. apply Hle. now right.
Qed.

Lemma next_id_above (t : table) (x : row) :
  In x t -> (fst x < next_id t)%Z.
Proof.
  destruct t as [|r t]; [contradiction |]. unfold next_id.
  revert x. induction t as [|r' t IH]; intros x; simpl.
  - intros [<- | []]. lia.
  - intros [<- | [<- | Hin]].
    + specialize (IH r (or_introl eq_refl)). simpl in IH. lia.
    + lia.
    + specialize (IH x (or_intror Hin)). simpl in IH. lia.
Qed.

(** An inserted row is read back last. *)
Lemma select_after_insert (t : table) (x : string) :
  select_message_list (insert t x) = (select_message_list t ++ [x])%list.
Proof.
  unfold select_message_list, insert.
  rewrite order_by_id_snoc, insert_sorted_last.
  - now rewrite map_app.
  - intros r Hr. apply (proj1 (order_by_id_In _ _)) in Hr.
    apply next_id_above in Hr. cbn [fst]. lia.
Qed.

Lemma extend_rows_acc (rs : list string) (acc : list ModelMessage) :
  extend_rows env rs acc =
    match extend_rows env rs [] with
    | Ok ms => Ok (acc ++ ms)%list
    | Raise e => Raise e
    end.
Proof.
  revert acc. induction rs as [|r rs IH]; intros acc; simpl.
  - now rewrite app_nil_r.
  - destruct (validate_json env r) as [ms | e]; [| reflexivity].
    rewrite (IH (acc ++ ms)%list), (IH ms).
    destruct (extend_rows env rs []); [| reflexivity].
    now rewrite app_assoc.
Qed.

Lemma extend_rows_snoc (rs : list string) (r : string) :
  extend_rows env (rs ++ [r])%list [] =
    match extend_rows env rs [] with
    | Ok old =>
        match validate_json env r with
        | Ok ms => Ok (old ++ ms)%list
        | Raise e => Raise e
        end
    | Raise e => Raise e
    end.
Proof.
  generalize (@nil ModelMessage) as acc.
  induction rs as [|r' rs IH]; intros acc; simpl.
  - destruct (validate_json env r); reflexivity.
  - destruct (validate_json env r'); [apply IH | reflexivity].
Qed.


Lemma get_messages_run (w : World) :
  get_messages env w =
    (match select_error env with
     | Some e => Raise e
     | None => extend_rows env (select_message_list (rows w)) []
     end,
     {| rows := rows w; ticks := ticks w;
        trace := (trace w ++ [EvSelect])%list |}).
Proof.
  unfold get_messages, bind, log, raise.
  destruct (select_error env); reflexivity.
Qed.

Lemma add_messages_run (x : string) (w : World) :
  add_messages env x w =
    match insert_error env with
    | Some e =>
        (Raise e, {| rows := rows w; ticks := ticks w;
                     trace := (trace w ++ [EvInsert x])%list |})
    | None =>
        (Ok tt, {| rows := insert (rows w) x; ticks := ticks w;
                   trace := (trace w ++ [EvInsert x])%list |})
    end.
Proof.
  unfold add_messages, bind, log, raise.
  destruct (insert_error env); reflexivity.
Qed.

(** Reading after an append, in general: the old read, then the new
    row's messages; a failure of either fails the read. *)
Lemma get_after_add (x : string) (w : World) :
  insert_error env = None ->
  fst (get_messages env (snd (add_messages env x w))) =
    match fst (get_messages env w) with
    | Ok old =>
        match validate_json env x with
        | Ok new => Ok (old ++ new)%list
        | Raise e => Raise e
        end
    | Raise e => Raise e
    end.
Proof.
  intros Hins. rewrite add_messages_run, Hins, !get_messages_run. simpl.
  destruct (select_error env); [reflexivity |].
  now rewrite select_after_insert, extend_rows_snoc.
Qed.

End StoreFacts.

(** C6. Appending an exchange and then reading everything returns the
    messages stored before, followed by exactly the messages of the
    appended exchange, in insertion order. *)
Theorem append_then_get_all (env : Env) (w : World) (exchange : string)
    (old new : list ModelMessage) :
  insert_error env = None ->
  fst (get_messages env w) = Ok old ->
  validate_json env exchange = Ok new ->
  let w' := snd (add_messages env exchange w) in
  fst (add_messages env exchange w) = Ok tt
  /\ rows w' = (rows w ++ [(next_id (rows w), exchange)])%list
  /\ select_message_list (rows w') =
       (select_message_list (rows w) ++ [exchange])%list
  /\ fst (get_messages env w') = Ok (old ++ new)%list.
Proof.
  intros Hins Hold Hnew w'. subst w'.
  rewrite (get_after_add env exchange w Hins), Hold, Hnew.
  rewrite add_messages_run, Hins. simpl.
  repeat split. apply select_after_insert.
Qed.

Lemma append_then_get_all_witness :
  fst (get_messages Demo.healthy
         (snd (add_messages Demo.healthy "bye"
                 (start [(1, "hi")]%Z 0)))) =
    Ok [ ModelRequest [UserPromptPart (StrContent "hi") "t0"];
         ModelResponse [TextPart "re: hi"] "t1";
         ModelRequest [UserPromptPart (StrContent "bye") "t0"];
         ModelResponse [TextPart "re: bye"] "t1" ].
Proof.
  apply (append_then_get_all Demo.healthy (start [(1, "hi")]%Z 0) "bye"
           [ ModelRequest [UserPromptPart (StrContent "hi") "t0"];
             ModelResponse [TextPart "re: hi"] "t1" ]
           [ ModelRequest [UserPromptPart (StrContent "bye") "t0"];
             ModelResponse [TextPart "re: bye"] "t1" ]);
    reflexivity.
Defined.

(** ** The streaming session *)

Section SessionFacts.

Variable env : Env.

Lemma dispatch_run (intent prompt : string) (messages : list ModelMessage)
    (w : World) :
  dispatch env intent prompt messages w =
    (dispatch_result env intent prompt messages,
     {| rows := rows w; ticks := ticks w;
        trace := (trace w ++ dispatch_events env intent prompt messages)%list |}).
Proof.
  unfold dispatch_result, dispatch_events, dispatch, run_agent, bind, log,
    lift, ret.
  destruct (intent =? "tasks");
    [cbn; destruct (task_agent env _ messages); reflexivity |].
  destruct (intent =? "recipe");
    [cbn; destruct (recipe_agent env _ messages); reflexivity |].
  destruct (intent =? "weather");
    [cbn; destruct (weather_agent env _ messages); reflexivity |].
  destruct (intent =? "review");
    [cbn; destruct (review_agent env _ messages); reflexivity |].
  cbn; destruct (general_agent env _ messages); reflexivity.
Qed.

(** [dispatch] calls exactly one agent, with the stored history. *)
Lemma dispatch_events_one (intent prompt : string)
    (messages : list ModelMessage) :
  exists agent user_prompt,
    dispatch_events env intent prompt messages =
      [EvAgentRun agent user_prompt messages].
Proof.
  unfold dispatch_events, dispatch, run_agent, bind, log, lift, ret.
  destruct (intent =? "tasks");
    [cbn; destruct (task_agent env _ messages); cbn; eauto |].
  destruct (intent =? "recipe");
    [cbn; destruct (recipe_agent env _ messages); cbn; eauto |].
  destruct (intent =? "weather");
    [cbn; destruct (weather_agent env _ messages); cbn; eauto |].
  destruct (intent =? "review");
    [cbn; destruct (review_agent env _ messages); cbn; eauto |].
  cbn; destruct (general_agent env _ messages); cbn; eauto.
Qed.

(** What [dispatch] returns, agent by agent. *)
Lemma dispatch_result_cases (intent prompt : string)
    (messages : list ModelMessage) :
  dispatch_result env intent prompt messages =
    if intent =? "tasks" then
      match task_agent env
              ("Create a task list based on this request: " ++ prompt)
              messages with
      | Ok result =>
          Ok (Some (dump_TaskList (data result)),
              "I've created a structured task list for you with "
                ++ str_of_int (total_tasks (data result)) ++ " tasks.",
              new_messages_json result)
      | Raise e => Raise e
      end
    else if intent =? "recipe" then
      match recipe_agent env
              ("Provide a recipe based on this request: " ++ prompt)
              messages with
      | Ok result =>
          Ok (Some (dump_Recipe (data result)),
              "Here's a " ++ Difficulty_value (difficulty (data result))
                ++ " recipe for " ++ recipe_name (data result)
                ++ " (serves " ++ str_of_int (servings (data result)) ++ ").",
              new_messages_json result)
      | Raise e => Raise e
      end
    else if intent =? "weather" then
      match weather_agent env
              ("Provide a weather forecast based on this request: " ++ prompt
                 ++ ". Note: This is a demo - provide realistic but fictional weather data.")
              messages with
      | Ok result =>
          Ok (Some (dump_WeatherForecast (data result)),
              "Here's the weather forecast for " ++ location (data result)
                ++ ".",
              new_messages_json result)
      | Raise e => Raise e
      end
    else if intent =? "review" then
      match review_agent env
              ("Provide a product review based on this request: " ++ prompt)
              messages with
      | Ok result =>
          Ok (Some (dump_ProductReview (data result)),
              "Here's a structured review for " ++ product_name (data result)
                ++ " (" ++ str_of_int (rating (data result)) ++ "/5 stars).",
              new_messages_json result)
      | Raise e => Raise e
      end
    else
      match general_agent env prompt messages with
      | Ok result => Ok (None, data result, new_messages_json result)
      | Raise e => Raise e
      end.
Proof.
  unfold dispatch_result, dispatch, run_agent, bind, log, lift, ret.
  destruct (intent =? "tasks");
    [cbn; destruct (task_agent env _ messages); reflexivity |].
  destruct (intent =? "recipe");
    [cbn; destruct (recipe_agent env _ messages); reflexivity |].
  destruct (intent =? "weather");
    [cbn; destruct (weather_agent env _ messages); reflexivity |].
  destruct (intent =? "review");
    [cbn; destruct (review_agent env _ messages); reflexivity |].
  cbn; destruct (general_agent env _ messages); reflexivity.
Qed.

(** [dispatch] fails only when the agent it called raised. *)
Lemma dispatch_result_raise (intent prompt : string)
    (messages : list ModelMessage) (e : exn) :
  dispatch_result env intent prompt messages = Raise e ->
  (exists p, task_agent env p messages = Raise e)
  \/ (exists p, recipe_agent env p messages = Raise e)
  \/ (exists p, weather_agent env p messages = Raise e)
  \/ (exists p, review_agent env p messages = Raise e)
  \/ (exists p, general_agent env p messages = Raise e).
Proof.
  rewrite dispatch_result_cases.
  destruct (intent =? "tasks");
    [destruct (task_agent env _ messages) eqn:H; [discriminate |];
     intros [= <-]; eauto |].
  destruct (intent =? "recipe");
    [destruct (recipe_agent env _ messages) eqn:H; [discriminate |];
     intros [= <-]; eauto |].
  destruct (intent =? "weather");
    [destruct (weather_agent env _ messages) eqn:H; [discriminate |];
     intros [= <-]; eauto 6 |].
  destruct (intent =? "review");
    [destruct (review_agent env _ messages) eqn:H; [discriminate |];
     intros [= <-]; eauto 7 |].
  destruct (general_agent env _ messages) eqn:H; [discriminate |].
  intros [= <-]. eauto 8.
Qed.

(** One request, start to end: every way [stream_messages] can run. *)
Lemma stream_messages_run (prompt : string) (t : table) (tick : nat) :
  let before :=
    [ EvYield (user_message (utc_now env tick) prompt);
      EvDetectIntent prompt; EvSelect ] in
  stream_messages env prompt (start t tick) =
    match fst (get_messages env (start t tick)) with
    | Raise e =>
        (Raise e, {| rows := t; ticks := S tick; trace := before |})
    | Ok messages =>
        let intent := detect_intent prompt in
        let called :=
          (before ++ dispatch_events env intent prompt messages)%list in
        match dispatch_result env intent prompt messages with
        | Raise e =>
            if is_Exception e then
              (Ok tt,
               {| rows := t; ticks := S (S tick);
                  trace :=
                    (called
                       ++ [EvYield (error_message (utc_now env (S tick)) e)])
                    %list |})
            else (Raise e, {| rows := t; ticks := S tick; trace := called |})
        | Ok (structured_data, content, new_json) =>
            let reply :=
              response_message (utc_now env (S tick)) content
                structured_data in
            match insert_error env with
            | None =>
                (Ok tt,
                 {| rows := insert t new_json; ticks := S (S tick);
                    trace :=
                      (called ++ [EvYield reply; EvInsert new_json])%list |})
            | Some e =>
                if is_Exception e then
                  (Ok tt,
                   {| rows := t; ticks := S (S (S tick));
                      trace :=
                        (called
                           ++ [ EvYield reply; EvInsert new_json;
                                EvYield
                                  (error_message (utc_now env (S (S tick))) e)
                              ])%list |})
                else
                  (Raise e,
                   {| rows := t; ticks := S (S tick);
                      trace :=
                        (called ++ [EvYield reply; EvInsert new_json])%list |})
            end
        end
    end.
Proof.
  intros before. subst before.
  unfold stream_messages, try_except, bind, now_isoformat, yield_, log, start.
  cbn [rows ticks trace app].
  rewrite !get_messages_run. cbn [rows ticks trace app fst snd].
  destruct (match select_error env with
            | Some e => Raise e
            | None => extend_rows env (select_message_list t) []
            end) as [messages | e]; [| reflexivity].
  rewrite dispatch_run. cbn [rows ticks trace].
  destruct (dispatch_result env (detect_intent prompt) prompt messages)
    as [[[structured_data content] new_json] | e].
  - rewrite add_messages_run. cbn [rows ticks trace].
    destruct (insert_error env) as [e |].
    + destruct (is_Exception e); cbn [rows ticks trace];
        rewrite <- ?app_assoc; reflexivity.
    + rewrite <- ?app_assoc. reflexivity.
  - destruct (is_Exception e); reflexivity.
Qed.

End SessionFacts.

(** C3. The first event of every [POST /chat/] stream is the yield of
    the user echo (role user, type text, content the submitted prompt):
    it comes before intent detection, before the history read and before
    any agent call, and every model turn is yielded after it. *)
Theorem user_echo_is_first (env : Env) (prompt : string) (t : table)
    (tick : nat) :
  let w' := snd (stream_messages env prompt (start t tick)) in
  let echo :=
    {| role := "user"; timestamp := utc_now env tick; content := prompt;
       message_type := "text"; structured_data := None |} in
  exists rest,
    trace w' = EvYield echo :: EvDetectIntent prompt :: EvSelect :: rest
    /\ (forall m, In (EvYield m) rest -> role m = "model")
    /\ yielded (trace w') = echo :: yielded rest
    /\ post_chat_body (trace w') = encode_line echo ++ post_chat_body rest.
Proof.
  intros w' echo. subst w'. rewrite stream_messages_run.
  destruct (fst (get_messages env (start t tick))) as [messages | e].
  2:{ exists []. repeat split. intros m []. }
  destruct (dispatch_events_one env (detect_intent prompt) prompt messages)
    as (agent & user_prompt & Hev).
  cbv zeta. rewrite Hev.
  destruct (dispatch_result env (detect_intent prompt) prompt messages)
    as [[[sd c] nj] | e];
    [destruct (insert_error env) as [e |] |];
    try destruct (is_Exception e);
    (eexists; split; [reflexivity |]; split; [| split; reflexivity]);
    cbn [In]; intros m Hm;
    repeat (destruct Hm as [Hm | Hm]; [try discriminate Hm |]);
    try contradiction;
    injection Hm as <-; reflexivity.
Qed.

Lemma user_echo_is_first_witness :
  exists rest,
    trace (snd (stream_messages Demo.healthy "Plan my week with 3 tasks"
                  (start [] 0))) =
      EvYield {| role := "user"; timestamp := "2025-01-01T00:00:00+00:00";
                 content := "Plan my week with 3 tasks";
                 message_type := "text"; structured_data := None |}
        :: EvDetectIntent "Plan my week with 3 tasks" :: EvSelect :: rest
    /\ (forall m, In (EvYield m) rest -> role m = "model").
Proof.
  destruct (user_echo_is_first Demo.healthy "Plan my week with 3 tasks" [] 0)
    as (rest & Htrace & Hmodel & _).
  exists rest. split; [exact Htrace | exact Hmodel].
Defined.

(** C2. When the agent call fails, the stream ends normally with a model
    turn whose content is "Sorry, I encountered an error: " followed by
    the error's message, of type text and without structured data; the
    failure is not propagated, nothing is appended and the table is as
    it was. *)
Theorem generator_failure_in_band (env : Env) (prompt : string) (t : table)
    (tick : nat) (history : list ModelMessage) (e : exn) :
  fst (get_messages env (start t tick)) = Ok history ->
  dispatch_result env (detect_intent prompt) prompt history = Raise e ->
  is_Exception e = true ->
  let out := stream_messages env prompt (start t tick) in
  fst out = Ok tt
  /\ yielded (trace (snd out)) =
       [ {| role := "user"; timestamp := utc_now env tick; content := prompt;
            message_type := "text"; structured_data := None |};
         {| role := "model"; timestamp := utc_now env (S tick);
            content := "Sorry, I encountered an error: " ++ exn_str e;
            message_type := "text"; structured_data := None |} ]
  /\ inserts (trace (snd out)) = []
  /\ rows (snd out) = t.
Proof.
  intros Hget Hrun Hexc out. subst out.
  rewrite stream_messages_run, Hget. cbv zeta. rewrite Hrun, Hexc.
  destruct (dispatch_events_one env (detect_intent prompt) prompt history)
    as (agent & user_prompt & ->).
  repeat split.
Qed.

Lemma generator_failure_in_band_witness :
  let out :=
    stream_messages (Demo.env "" (Some Demo.ConnectError) None None)
      "Review my blender" (start [(1, "hi")]%Z 0) in
  fst out = Ok tt
  /\ yielded (trace (snd out)) =
       [ {| role := "user"; timestamp := "2025-01-01T00:00:00+00:00";
            content := "Review my blender";
            message_type := "text"; structured_data := None |};
         {| role := "model"; timestamp := "2025-01-01T00:00:01+00:00";
            content := "Sorry, I encountered an error: connection refused";
            message_type := "text"; structured_data := None |} ]
  /\ inserts (trace (snd out)) = []
  /\ rows (snd out) = [(1, "hi")]%Z.
Proof.
  apply (generator_failure_in_band
           (Demo.env "" (Some Demo.ConnectError) None None)
           "Review my blender" [(1, "hi")]%Z 0
           [ ModelRequest [UserPromptPart (StrContent "hi") "t0"];
             ModelResponse [TextPart "re: hi"] "t1" ]
           Demo.ConnectError);
    reflexivity.
Defined.



(** C8. On a successful dispatch the content of the model's turn is the
    template of the detected intent, filled from the result's fields;
    for the general intent it is the agent's text as returned. *)
Theorem reply_content_templates (env : Env) (prompt : string) (t : table)
    (tick : nat) (history : list ModelMessage) :
  fst (get_messages env (start t tick)) = Ok history ->
  let intent := detect_intent prompt in
  let replied (c : string) :=
    exists reply rest,
      yielded (trace (snd (stream_messages env prompt (start t tick)))) =
        user_message (utc_now env tick) prompt :: reply :: rest
      /\ role reply = "model" /\ content reply = c in
  (intent = "tasks" ->
   forall r,
     task_agent env ("Create a task list based on this request: " ++ prompt)
       history = Ok r ->
     replied ("I've created a structured task list for you with "
                ++ str_of_int (total_tasks (data r)) ++ " tasks."))
  /\ (intent = "recipe" ->
      forall r,
        recipe_agent env ("Provide a recipe based on this request: " ++ prompt)
          history = Ok r ->
        replied ("Here's a " ++ Difficulty_value (difficulty (data r))
                   ++ " recipe for " ++ recipe_name (data r)
                   ++ " (serves " ++ str_of_int (servings (data r)) ++ ")."))
  /\ (intent = "weather" ->
      forall r,
        weather_agent env
          ("Provide a weather forecast based on this request: " ++ prompt
             ++ ". Note: This is a demo - provide realistic but fictional weather data.")
          history = Ok r ->
        replied ("Here's the weather forecast for " ++ location (data r)
                   ++ "."))
  /\ (intent = "review" ->
      forall r,
        review_agent env
          ("Provide a product review based on this request: " ++ prompt)
          history = Ok r ->
        replied ("Here's a structured review for " ++ product_name (data r)
                   ++ " (" ++ str_of_int (rating (data r)) ++ "/5 stars)."))
  /\ (intent = "general" ->
      forall r,
        general_agent env prompt history = Ok r ->
        replied (data r)).
Proof.
  intros Hget intent replied. subst intent replied. cbv beta.
  rewrite stream_messages_run, Hget. cbv zeta.
  destruct (dispatch_events_one env (detect_intent prompt) prompt history)
    as (agent & user_prompt & ->).
  rewrite dispatch_result_cases.
  repeat split; intros -> r ->; cbn [String.eqb Ascii.eqb Bool.eqb];
    (destruct (insert_error env) as [e |]; [destruct (is_Exception e) |]);
    do 2 eexists; (split; [reflexivity | split; reflexivity]).
Qed.

Lemma reply_content_templates_witness :
  exists reply rest,
    yielded (trace (snd (stream_messages Demo.healthy
                           "What's the weather in Paris?" (start [] 0)))) =
      user_message (Demo.clock 0) "What's the weather in Paris?"
        :: reply :: rest
    /\ role reply = "model"
    /\ content reply = "Here's the weather forecast for Paris.".
Proof.
  destruct (reply_content_templates Demo.healthy
              "What's the weather in Paris?" [] 0 [] eq_refl)
    as (_ & _ & Hweather & _).
  exact (Hweather eq_refl _ eq_refl).
Defined.

(** The scenario of the task list: three tasks, announced as such. *)
Example plan_my_week :
  detect_intent "Plan my week with 3 tasks" = "tasks"
  /\ map content
       (yielded (trace (snd (stream_messages Demo.healthy
                               "Plan my week with 3 tasks" (start [] 0))))) =
     [ "Plan my week with 3 tasks";
       "I've created a structured task list for you with 3 tasks." ].
Proof. split; reflexivity. Qed.

Example str_of_int_examples :
  str_of_int 0 = "0" /\ str_of_int 42 = "42" /\ str_of_int (-7) = "-7".
Proof. repeat split. Qed.

(** C9, counterexample. The general agent answers with empty text: the
    model's turn goes out with empty content. *)
Lemma empty_reply_has_empty_content :
  let out :=
    stream_messages (Demo.env "" None None None) "hi" (start [] 0) in
  fst out = Ok tt
  /\ exists m,
       In m (yielded (trace (snd out)))
       /\ role m = "model" /\ content m = "".
Proof.
  split; [reflexivity |].
  exists (response_message (Demo.clock 1) "" None).
  split; [right; left; reflexivity | split; reflexivity].
Qed.

(** C9, amended. Every turn yielded by [POST /chat/] carries structured
    data exactly when its type is "structured".  Its content is empty
    only if it is the echo of an empty prompt or the general agent's
    reply and that reply is the empty text: structured replies and error
    replies never have empty content. *)
Theorem emitted_turn_invariant (env : Env) (prompt : string) (t : table)
    (tick : nat) (m : ChatMessage) :
  In m (yielded (trace (snd (stream_messages env prompt (start t tick))))) ->
  (structured_data m <> None <-> message_type m = "structured")
  /\ (content m = "" ->
      (role m = "user" /\ prompt = "")
      \/ (role m = "model" /\ message_type m = "text"
          /\ exists history r,
               fst (get_messages env (start t tick)) = Ok history
               /\ general_agent env prompt history = Ok r
               /\ data r = "")).
Proof.
  rewrite stream_messages_run.
  destruct (fst (get_messages env (start t tick))) as [history | e].
  2:{ cbn. intros [<- | []]. cbn. split.
      - split; [congruence | discriminate].
      - intros ->. now left. }
  cbv zeta.
  destruct (dispatch_events_one env (detect_intent prompt) prompt history)
    as (agent & user_prompt & ->).
  rewrite dispatch_result_cases.
  assert (Hecho :
    forall P : Prop,
      (structured_data (user_message (utc_now env tick) prompt) <> None
         <-> message_type (user_message (utc_now env tick) prompt)
               = "structured")
      /\ (content (user_message (utc_now env tick) prompt) = "" ->
          (role (user_message (utc_now env tick) prompt) = "user"
           /\ prompt = "") \/ P)).
  { intros P. cbn. split; [split; [congruence | discriminate] |].
    intros ->. now left. }
  assert (Herr :
    forall k e (P : Prop),
      (structured_data (error_message k e) <> None
         <-> message_type (error_message k e) = "structured")
      /\ (content (error_message k e) = "" -> P)).
  { intros k e P. cbn. split; [split; [congruence | discriminate] |].
    discriminate. }
  destruct (detect_intent prompt =? "tasks");
    [destruct (task_agent env _ history) as [r | e] |
     destruct (detect_intent prompt =? "recipe");
       [destruct (recipe_agent env _ history) as [r | e] |
        destruct (detect_intent prompt =? "weather");
          [destruct (weather_agent env _ history) as [r | e] |
           destruct (detect_intent prompt =? "review");
             [destruct (review_agent env _ history) as [r | e] |
              destruct (general_agent env prompt history) as [r | e] eqn:Hgen
             ]]]];
    try (destruct (insert_error env) as [e' |];
         [destruct (is_Exception e') |]);
    try destruct (is_Exception e);
    cbn [yielded trace snd app In];
    intros Hm;
    repeat (destruct Hm as [<- | Hm]; [try apply Hecho; try apply Herr |]);
    try contradiction;
    try (cbn; split; [split; [reflexivity | discriminate] | discriminate]).
  all: cbn; split; [split; [congruence | discriminate] |];
    intros Hc; right; repeat split; exists history, r; auto.
Qed.

Lemma emitted_turn_invariant_witness :
  structured_data (response_message (Demo.clock 1)
                     "Here's the weather forecast for Paris."
                     (Some (dump_WeatherForecast Demo.paris))) <> None
  <-> message_type (response_message (Demo.clock 1)
                      "Here's the weather forecast for Paris."
                      (Some (dump_WeatherForecast Demo.paris)))
        = "structured".
Proof.
  apply (emitted_turn_invariant Demo.healthy "What's the weather in Paris?"
           [] 0).
  right; left; reflexivity.
Defined.

(** ** Store failures *)




(** ** The conversation as lines *)

Section LineFacts.

Lemma no_newline_app (a b : string) :
  no_newline (a ++ b) = no_newline a && no_newline b.
Proof. apply all_chars_app. Qed.

Lemma escape_char_no_newline (c : ascii) : no_newline (escape_char c) = true.
Proof. destruct c as [[] [] [] [] [] [] [] []]; reflexivity. Qed.

Lemma escape_no_newline (s : string) : no_newline (escape s) = true.
Proof.
  induction s as [|c s IH]; [reflexivity |]. cbn [escape].
  now rewrite no_newline_app, escape_char_no_newline, IH.
Qed.

Lemma quote_no_newline (s : string) : no_newline (quote s) = true.
Proof.
  unfold quote. now rewrite !no_newline_app, escape_no_newline.
Qed.

(** A rendered stored message is one line, and not an empty one. *)
Lemma chat_line_no_newline (m : ChatMessage) :
  structured_data m = None -> no_newline (chat_line m) = true.
Proof.
  intros Hsd. unfold chat_line, chat_dict. rewrite Hsd.
  cbn [dumps map join].
  now rewrite !no_newline_app, !quote_no_newline.
Qed.

Lemma chat_line_not_empty (m : ChatMessage) : chat_line m <> "".
Proof. unfold chat_line. cbn [dumps]. discriminate. Qed.

Lemma split_nl_line (l : string) :
  no_newline l = true -> split_nl l = (l, []).
Proof.
  induction l as [|c l IH]; [reflexivity |].
  unfold no_newline. cbn [all_chars split_nl].
  rewrite andb_true_iff, negb_true_iff. intros [Hc Hl].
  now rewrite (IH Hl), Hc.
Qed.

Lemma split_nl_app (l rest : string) :
  no_newline l = true ->
  split_nl (l ++ nl ++ rest) =
    (l, fst (split_nl rest) :: snd (split_nl rest)).
Proof.
  induction l as [|c l IH].
  - intros _. cbn. now destruct (split_nl rest).
  - unfold no_newline. cbn [all_chars split_nl append].
    rewrite andb_true_iff, negb_true_iff. intros [Hc Hl].
    now rewrite (IH Hl), Hc.
Qed.

Lemma split_nl_join (l : string) (ls : list string) :
  Forall (fun x => no_newline x = true) (l :: ls) ->
  split_nl (join nl (l :: ls)) = (l, ls).
Proof.
  revert l. induction ls as [|l' ls IH]; intros l Hall.
  - apply split_nl_line. now inversion Hall.
  - inversion Hall as [|? ? Hl Hrest]; subst.
    change (join nl (l :: l' :: ls)) with (l ++ nl ++ join nl (l' :: ls)).
    now rewrite (split_nl_app _ _ Hl), (IH l' Hrest).
Qed.

Lemma body_lines_join (ls : list string) :
  Forall (fun x => no_newline x = true) ls ->
  Forall (fun x => x <> "") ls ->
  body_lines (join nl ls) = ls.
Proof.
  destruct ls as [|l ls]; [reflexivity |]. intros Hnl Hne.
  unfold body_lines. rewrite (split_nl_join l ls Hnl).
  destruct (join nl (l :: ls)) eqn:Hj; [| reflexivity].
  exfalso. inversion Hne as [|? ? Hl _]; subst. apply Hl.
  destruct ls; cbn in Hj; [exact Hj |].
  destruct l; [reflexivity | discriminate].
Qed.

End LineFacts.

Section RenderFacts.

Variable env : Env.

Lemma to_chat_message_renderable (m : ModelMessage) :
  renderable m = true ->
  exists c,
    to_chat_message env m = Ok c
    /\ message_type c = "text" /\ structured_data c = None.
Proof.
  destruct m as [[|[[s |] ts | s | k] ps] | [|[c ts' | s | k] ps] ts];
    try discriminate; intros _; eexists; cbn; repeat split.
Qed.

Lemma to_chat_message_not_renderable (m : ModelMessage) :
  renderable m = false -> exists e, to_chat_message env m = Raise e.
Proof.
  destruct m as [[|[[s |] ts | s | k] ps] | [|[c ts' | s | k] ps] ts];
    try discriminate; intros _; eexists; cbn; reflexivity.
Qed.



Lemma get_chat_run (w : World) :
  fst (get_chat env w) =
    match fst (get_messages env w) with
    | Raise e => Raise e
    | Ok msgs =>
        match map_res (to_chat_message env) msgs with
        | Raise e => Raise e
        | Ok chat => Ok (join nl (map chat_line chat))
        end
    end.
Proof.
  unfold get_chat, bind, lift, ret.
  destruct (get_messages env w) as [[msgs | e] w']; cbn [fst];
    [| reflexivity].
  destruct (map_res (to_chat_message env) msgs); reflexivity.
Qed.

End RenderFacts.




(** A stored exchange of plain text comes back as two lines. *)
Example get_chat_two_lines :
  exists body,
    fst (get_chat Demo.healthy (start [(1, "hi")]%Z 0)) = Ok body
    /\ length (body_lines body) = 2.
Proof. eexists. split; reflexivity. Qed.

(** * Further properties of the code *)

(** ** Intent detection *)

Lemma lower_char_idempotent (c : ascii) :
  lower_char (lower_char c) = lower_char c.
Proof. destruct c as [[] [] [] [] [] [] [] []]; reflexivity. Qed.

Lemma lower_idempotent (s : string) : lower (lower s) = lower s.
Proof.
  induction s as [|c s IH]; cbn [lower]; [reflexivity |].
  now rewrite lower_char_idempotent, IH.
Qed.

(** X1. Detection is insensitive to case: a prompt and its lowercased
    form get the same intent, and so do two prompts that differ only in
    the case of their letters. *)
Theorem detect_intent_case_insensitive (p q : string) :
  detect_intent (lower p) = detect_intent p
  /\ (lower p = lower q -> detect_intent p = detect_intent q).
Proof.
  split.
  - rewrite !detect_intent_cases. now rewrite lower_idempotent.
  - intros H. rewrite !detect_intent_cases. now rewrite H.
Qed.

Lemma detect_intent_case_insensitive_witness :
  detect_intent "COOK something" = detect_intent "cook SOMETHING".
Proof.
  apply (proj2 (detect_intent_case_insensitive
                  "COOK something" "cook SOMETHING")).
  reflexivity.
Defined.

Lemma any_in_embedded (keywords : list string) (a p b : string) :
  any_in keywords (lower p) = true ->
  any_in keywords (lower (a ++ p ++ b)) = true.
Proof.
  rewrite !any_in_iff. intros (kw & Hin & x & y & Hp).
  exists kw. split; [exact Hin |].
  exists (lower a ++ x), (y ++ lower b).
  rewrite !lower_app, Hp.
  clear. induction (lower a) as [|c s IH]; cbn [append].
  - induction x as [|c x IH]; cbn [append]; [| now rewrite IH].
    induction kw as [|c kw IH]; cbn [append]; [| now rewrite IH].
    reflexivity.
  - now rewrite IH.
Qed.

(** X2. Text around a prompt can only move its intent up the priority
    order: a tasks prompt stays tasks, a recipe prompt becomes tasks or
    stays recipe, a weather prompt never drops to review or general, and
    the larger text is general only if the prompt was. *)
Theorem detect_intent_embedding (a p b : string) :
  (detect_intent p = "tasks" -> detect_intent (a ++ p ++ b) = "tasks")
  /\ (detect_intent p = "recipe" ->
      detect_intent (a ++ p ++ b) = "tasks"
      \/ detect_intent (a ++ p ++ b) = "recipe")
  /\ (detect_intent p = "weather" ->
      detect_intent (a ++ p ++ b) = "tasks"
      \/ detect_intent (a ++ p ++ b) = "recipe"
      \/ detect_intent (a ++ p ++ b) = "weather")
  /\ (detect_intent (a ++ p ++ b) = "general" -> detect_intent p = "general").
Proof.
  rewrite !detect_intent_cases.
  pose proof (any_in_embedded tasks_keywords a p b) as H1.
  pose proof (any_in_embedded recipe_keywords a p b) as H2.
  pose proof (any_in_embedded weather_keywords a p b) as H3.
  pose proof (any_in_embedded review_keywords a p b) as H4.
  destruct (any_in tasks_keywords (lower p));
    [rewrite (H1 eq_refl); repeat split; (discriminate || auto) |].
  destruct (any_in recipe_keywords (lower p)).
  { rewrite (H2 eq_refl).
    destruct (any_in tasks_keywords (lower (a ++ p ++ b)));
      repeat split; (discriminate || auto). }
  destruct (any_in weather_keywords (lower p)).
  { rewrite (H3 eq_refl).
    destruct (any_in tasks_keywords (lower (a ++ p ++ b)));
      destruct (any_in recipe_keywords (lower (a ++ p ++ b)));
      repeat split; (discriminate || auto). }
  destruct (any_in review_keywords (lower p)).
  { rewrite (H4 eq_refl).
    destruct (any_in tasks_keywords (lower (a ++ p ++ b)));
      destruct (any_in recipe_keywords (lower (a ++ p ++ b)));
      destruct (any_in weather_keywords (lower (a ++ p ++ b)));
      repeat split; discriminate. }
  repeat split; (discriminate || auto).
Qed.

Lemma detect_intent_embedding_witness :
  detect_intent ("Please " ++ "plan" ++ " a meal") = "tasks".
Proof.
  apply (proj1 (detect_intent_embedding "Please " "plan" " a meal")).
  reflexivity.
Defined.

(** ** Routing *)

Lemma dispatch_events_cases (env : Env) (intent prompt : string)
    (messages : list ModelMessage) :
  dispatch_events env intent prompt messages =
    [ if intent =? "tasks" then
        EvAgentRun "task_agent"
          ("Create a task list based on this request: " ++ prompt) messages
      else if intent =? "recipe" then
        EvAgentRun "recipe_agent"
          ("Provide a recipe based on this request: " ++ prompt) messages
      else if intent =? "weather" then
        EvAgentRun "weather_agent"
          ("Provide a weather forecast based on this request: " ++ prompt
             ++ ". Note: This is a demo - provide realistic but fictional weather data.")
          messages
      else if intent =? "review" then
        EvAgentRun "review_agent"
          ("Provide a product review based on this request: " ++ prompt)
          messages
      else EvAgentRun "general_agent" prompt messages ].
Proof.
  unfold dispatch_events, dispatch, run_agent, bind, log, lift, ret.
  destruct (intent =? "tasks");
    [cbn; destruct (task_agent env _ messages); reflexivity |].
  destruct (intent =? "recipe");
    [cbn; destruct (recipe_agent env _ messages); reflexivity |].
  destruct (intent =? "weather");
    [cbn; destruct (weather_agent env _ messages); reflexivity |].
  destruct (intent =? "review");
    [cbn; destruct (review_agent env _ messages); reflexivity |].
  cbn; destruct (general_agent env _ messages); reflexivity.
Qed.

Lemma agent_runs_app (tr1 tr2 : list event) :
  agent_runs (tr1 ++ tr2) = (agent_runs tr1 ++ agent_runs tr2)%list.
Proof.
  induction tr1 as [|[] tr1 IH]; cbn [agent_runs app]; try exact IH.
  - reflexivity.
  - now rewrite IH.
Qed.

Lemma agent_runs_of_request (env : Env) (prompt : string) (t : table)
    (tick : nat) :
  agent_runs (trace (snd (stream_messages env prompt (start t tick)))) =
    match fst (get_messages env (start t tick)) with
    | Raise _ => []
    | Ok history =>
        agent_runs
          (dispatch_events env (detect_intent prompt) prompt history)
    end.
Proof.
  rewrite stream_messages_run.
  destruct (fst (get_messages env (start t tick))) as [history | e];
    [| reflexivity].
  cbv zeta.
  destruct (dispatch_result env (detect_intent prompt) prompt history)
    as [[[sd c] nj] | e];
    [destruct (insert_error env) as [e |] |];
    try destruct (is_Exception e);
    cbn [snd trace]; rewrite ?agent_runs_app; cbn [agent_runs app];
    now rewrite ?app_nil_r.
Qed.

(** X3. A request whose history read succeeds calls exactly one agent,
    the one of the detected intent, with the stored history: the four
    structured agents get the prompt inside their instruction template,
    the general agent gets the prompt as submitted.  A request whose
    history read fails calls no agent. *)
Theorem one_agent_call_selected_by_intent (env : Env) (prompt : string)
    (t : table) (tick : nat) :
  let runs :=
    agent_runs (trace (snd (stream_messages env prompt (start t tick)))) in
  (forall e, fst (get_messages env (start t tick)) = Raise e -> runs = [])
  /\ (forall history,
        fst (get_messages env (start t tick)) = Ok history ->
        (detect_intent prompt = "tasks" ->
         runs = [("task_agent",
                  "Create a task list based on this request: " ++ prompt,
                  history)])
        /\ (detect_intent prompt = "recipe" ->
            runs = [("recipe_agent",
                     "Provide a recipe based on this request: " ++ prompt,
                     history)])
        /\ (detect_intent prompt = "weather" ->
            runs = [("weather_agent",
                     "Provide a weather forecast based on this request: "
                       ++ prompt
                       ++ ". Note: This is a demo - provide realistic but fictional weather data.",
                     history)])
        /\ (detect_intent prompt = "review" ->
            runs = [("review_agent",
                     "Provide a product review based on this request: "
                       ++ prompt,
                     history)])
        /\ (detect_intent prompt = "general" ->
            runs = [("general_agent", prompt, history)])).
Proof.
  intros runs. subst runs. rewrite agent_runs_of_request. split.
  - now intros e ->.
  - intros history ->. rewrite dispatch_events_cases.
    repeat split; intros ->; reflexivity.
Qed.

Lemma one_agent_call_selected_by_intent_witness :
  agent_runs (trace (snd (stream_messages Demo.healthy "Review my blender"
                            (start [(1, "hi")]%Z 0)))) =
    [ ("review_agent",
       "Provide a product review based on this request: Review my blender",
       [ ModelRequest [UserPromptPart (StrContent "hi") "t0"];
         ModelResponse [TextPart "re: hi"] "t1" ]) ].
Proof.
  destruct (one_agent_call_selected_by_intent Demo.healthy
              "Review my blender" [(1, "hi")]%Z 0) as (_ & Hok).
  destruct (Hok _ eq_refl) as (_ & _ & _ & Hreview & _).
  exact (Hreview eq_refl).
Defined.

(** ** The table *)

Section TableFacts.

Lemma insert_sorted_perm (r : row) (l : list row) :
  Permutation (insert_sorted r l) (r :: l).
Proof.
  induction l as [|r' l IH]; cbn [insert_sorted]; [reflexivity |].
  destruct (fst r <? fst r')%Z; [reflexivity |].
  rewrite IH. apply perm_swap.
Qed.

Lemma order_by_id_perm (t : table) : Permutation (order_by_id t) t.
Proof.
  induction t as [|r t IH] using rev_ind; [reflexivity |].
  rewrite order_by_id_snoc, insert_sorted_perm, IH.
  apply Permutation_cons_append.
Qed.

Lemma insert_sorted_sorted (r : row) (l : list row) :
  StronglySorted (fun a b => (fst a <= fst b)%Z) l ->
  StronglySorted (fun a b => (fst a <= fst b)%Z) (insert_sorted r l).
Proof.
  induction l as [|r' l IH]; intros Hs; cbn [insert_sorted].
  - repeat constructor.
  - apply StronglySorted_inv in Hs. destruct Hs as [Hl Hr'].
    destruct (Z.ltb_spec (fst r) (fst r')) as [Hlt | Hge].
    + constructor; [now constructor |]. constructor; [lia |].
      eapply Forall_impl; [| exact Hr']. cbv beta. intros; lia.
    + constructor; [now apply IH |].
      rewrite Forall_forall in Hr' |- *. intros x Hx.
      apply insert_sorted_In in Hx. destruct Hx as [-> | Hx]; auto.
Qed.

Lemma order_by_id_sorted (t : table) :
  StronglySorted (fun a b => (fst a <= fst b)%Z) (order_by_id t).
Proof.
  induction t as [|r t IH] using rev_ind; [constructor |].
  rewrite order_by_id_snoc. now apply insert_sorted_sorted.
Qed.

Lemma sorted_distinct_ascending (l : list row) :
  StronglySorted (fun a b => (fst a <= fst b)%Z) l ->
  NoDup (map fst l) -> ascending l.
Proof.
  unfold ascending. induction l as [|x l IH]; intros Hs Hnd;
    [constructor |].
  apply StronglySorted_inv in Hs. destruct Hs as [Hl Hx].
  cbn [map] in Hnd. apply NoDup_cons_iff in Hnd. destruct Hnd as [Hnin Hnd].
  constructor; [now apply IH |].
  rewrite Forall_forall in Hx |- *. intros y Hy.
  specialize (Hx y Hy).
  assert (fst x <> fst y) by (intros E; apply Hnin; rewrite E; now apply in_map).
  lia.
Qed.

Lemma ascending_perm_eq (l1 l2 : list row) :
  ascending l1 -> ascending l2 -> Permutation l1 l2 -> l1 = l2.
Proof.
  unfold ascending. revert l2.
  induction l1 as [|x l1 IH]; intros l2 H1 H2 Hp.
  - now apply Permutation_nil in Hp.
  - destruct l2 as [|y l2].
    { apply Permutation_sym, Permutation_nil in Hp. discriminate. }
    apply StronglySorted_inv in H1. destruct H1 as [H1 Hx].
    apply StronglySorted_inv in H2. destruct H2 as [H2 Hy].
    assert (Hxy : x = y).
    { assert (Hin1 : In x (y :: l2))
        by (eapply Permutation_in; [exact Hp | now left]).
      assert (Hin2 : In y (x :: l1))
        by (eapply Permutation_in;
            [apply Permutation_sym; exact Hp | now left]).
      destruct Hin1 as [-> | Hin1]; [reflexivity |].
      destruct Hin2 as [-> | Hin2]; [reflexivity |].
      rewrite Forall_forall in Hx, Hy.
      specialize (Hx y Hin2). specialize (Hy x Hin1). lia. }
    subst y. f_equal. apply IH; trivial.
    now apply Permutation_cons_inv in Hp.
Qed.


End TableFacts.



Lemma inserts_read_back_in_order (t : table) (exchanges : list string) :
  select_message_list (fold_left insert exchanges t) =
    (select_message_list t ++ exchanges)%list
  /\ length (fold_left insert exchanges t) =
       length t + length exchanges.
Proof.
  revert t. induction exchanges as [|x xs IH]; intros t; cbn [fold_left].
  - rewrite app_nil_r. cbn. split; [reflexivity | lia].
  - destruct (IH (insert t x)) as [Hsel Hlen].
    rewrite Hsel, Hlen, select_after_insert, <- app_assoc.
    unfold insert. rewrite length_app. cbn. split; [reflexivity | lia].
Qed.

Lemma add_messages_fold_rows (env : Env) (exchanges : list string)
    (w : World) :
  insert_error env = None ->
  rows (fold_left (fun w x => snd (add_messages env x w)) exchanges w) =
    fold_left insert exchanges (rows w).
Proof.
  intros Hins. revert w.
  induction exchanges as [|x xs IH]; intros w; cbn [fold_left];
    [reflexivity |].
  rewrite IH, add_messages_run, Hins. reflexivity.
Qed.

(** X5. Exchanges appended one after the other are read back after the
    rows stored before, in the order of their insertion, each exactly
    once: the table grows by one row per append, and [get_messages]
    decodes the old rows and then the appended ones. *)
Theorem appends_read_back_in_order (env : Env) (w : World)
    (exchanges : list string) :
  insert_error env = None ->
  select_error env = None ->
  let w' := fold_left (fun w x => snd (add_messages env x w)) exchanges w in
  length (rows w') = length (rows w) + length exchanges
  /\ select_message_list (rows w') =
       (select_message_list (rows w) ++ exchanges)%list
  /\ fst (get_messages env w') =
       extend_rows env (select_message_list (rows w) ++ exchanges)%list [].
Proof.
  intros Hins Hsel w'. subst w'.
  rewrite get_messages_run, Hsel. cbn [fst].
  rewrite (add_messages_fold_rows env exchanges w Hins).
  destruct (inserts_read_back_in_order (rows w) exchanges) as [Hs Hl].
  now rewrite Hs, Hl.
Qed.

Lemma appends_read_back_in_order_witness :
  select_message_list
    (rows (fold_left (fun w x => snd (add_messages Demo.healthy x w))
             ["one"; "two"; "three"] (start [(4, "zero")]%Z 0))) =
    ["zero"; "one"; "two"; "three"].
Proof.
  apply (appends_read_back_in_order Demo.healthy (start [(4, "zero")]%Z 0)
           ["one"; "two"; "three"]); reflexivity.
Defined.

(** X6. [SELECT ... order by id] on a table with distinct ids returns
    every row exactly once, by ascending id; the answer, and with it the
    history [get_messages] returns, does not depend on the order in
    which the rows are physically kept. *)
Theorem select_orders_by_id (env : Env) (t t' : table) (tick : nat) :
  NoDup (map fst t) ->
  Permutation t t' ->
  Permutation (order_by_id t) t
  /\ ascending (order_by_id t)
  /\ select_message_list t' = select_message_list t
  /\ fst (get_messages env (start t' tick)) =
       fst (get_messages env (start t tick)).
Proof.
  intros Hnd Hp.
  assert (Hasc : forall u, Permutation t u -> ascending (order_by_id u)).
  { intros u Hu. apply sorted_distinct_ascending.
    - apply order_by_id_sorted.
    - eapply Permutation_NoDup; [| exact Hnd].
      apply Permutation_map. rewrite order_by_id_perm. exact Hu. }
  assert (Heq : order_by_id t' = order_by_id t).
  { apply ascending_perm_eq; [now apply Hasc | now apply Hasc |].
    rewrite !order_by_id_perm. now apply Permutation_sym. }
  split; [apply order_by_id_perm |].
  split; [now apply Hasc |].
  split; [unfold select_message_list; now rewrite Heq |].
  rewrite !get_messages_run. cbn [fst rows start].
  unfold select_message_list. now rewrite Heq.
Qed.

Lemma select_orders_by_id_witness :
  select_message_list [(2, "b"); (1, "a"); (3, "c")]%Z = ["a"; "b"; "c"]
  /\ select_message_list [(3, "c"); (2, "b"); (1, "a")]%Z =
       select_message_list [(2, "b"); (1, "a"); (3, "c")]%Z.
Proof.
  split; [reflexivity |].
  apply (select_orders_by_id Demo.healthy
           [(2, "b"); (1, "a"); (3, "c")]%Z
           [(3, "c"); (2, "b"); (1, "a")]%Z 0).
  - cbn. repeat constructor; cbn; intuition discriminate.
  - apply Permutation_sym.
    change [(3, "c"); (2, "b"); (1, "a")]%Z
      with ([(3, "c")] ++ [(2, "b"); (1, "a")])%list%Z.
    apply (Permutation_cons_append [(2, "b"); (1, "a")]%Z (3, "c")%Z).
Defined.

Lemma extend_rows_ok_iff (env : Env) (rs : list string)
    (ms : list ModelMessage) :
  extend_rows env rs [] = Ok ms <->
  exists decoded,
    Forall2 (fun r d => validate_json env r = Ok d) rs decoded
    /\ ms = concat decoded.
Proof.
  revert ms. induction rs as [|r rs IH]; intros ms; cbn [extend_rows].
  - split.
    + intros [= <-]. exists []. split; [constructor | reflexivity].
    + intros (decoded & Hall & ->). inversion Hall. reflexivity.
  - destruct (validate_json env r) as [d | e] eqn:Hr.
    + rewrite extend_rows_acc. cbn [app].
      destruct (extend_rows env rs []) as [rest | e] eqn:Hrest.
      * split.
        -- intros [= <-].
           destruct (proj1 (IH rest) eq_refl) as (decoded & Hall & ->).
           exists (d :: decoded). split; [now constructor | reflexivity].
        -- intros (decoded & Hall & ->).
           inversion Hall as [|? d' ? decoded' Hd Hall']; subst.
           rewrite Hr in Hd. injection Hd as <-.
           assert (Hrest' : Ok rest = Ok (concat decoded'))
             by (apply IH; now exists decoded').
           injection Hrest' as ->. reflexivity.
      * split; [discriminate |].
        intros (decoded & Hall & ->).
        inversion Hall as [|? d' ? decoded' Hd Hall']; subst.
        assert (Hrest' : @Raise (list ModelMessage) e = Ok (concat decoded'))
          by (apply IH; now exists decoded').
        discriminate.
    + split; [discriminate |].
      intros (decoded & Hall & _).
      inversion Hall as [|? d' ? decoded' Hd Hall']; subst.
      rewrite Hr in Hd. discriminate.
Qed.

(** X7. [get_messages] succeeds exactly when SQLite answers and every
    row parses, and it then returns the rows' messages flattened in id
    order; it never changes the table. *)
Theorem get_messages_flattens_rows (env : Env) (w : World)
    (ms : list ModelMessage) :
  (fst (get_messages env w) = Ok ms <->
   select_error env = None
   /\ exists decoded,
        Forall2 (fun r d => validate_json env r = Ok d)
          (select_message_list (rows w)) decoded
        /\ ms = concat decoded)
  /\ rows (snd (get_messages env w)) = rows w.
Proof.
  rewrite get_messages_run. cbn [fst snd rows]. split; [| reflexivity].
  destruct (select_error env) as [e |].
  - split; [discriminate | intros [[=] _]].
  - rewrite extend_rows_ok_iff. split; [now split | now intros [_ H]].
Qed.

Lemma get_messages_flattens_rows_witness :
  fst (get_messages Demo.healthy (start [(2, "b"); (1, "a")]%Z 0)) =
    Ok [ ModelRequest [UserPromptPart (StrContent "a") "t0"];
         ModelResponse [TextPart "re: a"] "t1";
         ModelRequest [UserPromptPart (StrContent "b") "t0"];
         ModelResponse [TextPart "re: b"] "t1" ].
Proof.
  apply (proj1 (get_messages_flattens_rows Demo.healthy
                  (start [(2, "b"); (1, "a")]%Z 0) _)).
  split; [reflexivity |].
  exists [ [ ModelRequest [UserPromptPart (StrContent "a") "t0"];
             ModelResponse [TextPart "re: a"] "t1" ];
           [ ModelRequest [UserPromptPart (StrContent "b") "t0"];
             ModelResponse [TextPart "re: b"] "t1" ] ].
  split; [repeat constructor | reflexivity].
Defined.

(** ** The session as a whole *)




(** X10. The stream holds one, two or three turns, at least two when
    the request ends normally, and each turn carries the clock reading
    taken when it was built: the readings are consecutive and the clock
    is read once per turn. *)
Theorem stream_is_stamped_in_order (env : Env) (prompt : string)
    (t : table) (tick : nat) :
  let out := stream_messages env prompt (start t tick) in
  let turns := yielded (trace (snd out)) in
  map timestamp turns = map (utc_now env) (seq tick (length turns))
  /\ ticks (snd out) = tick + length turns
  /\ 1 <= length turns <= 3
  /\ (fst out = Ok tt -> 2 <= length turns).
Proof.
  intros out turns. subst out turns. rewrite stream_messages_run.
  destruct (fst (get_messages env (start t tick))) as [history | e].
  2:{ cbn. repeat split; (lia || discriminate). }
  cbv zeta.
  destruct (dispatch_events_one env (detect_intent prompt) prompt history)
    as (agent & user_prompt & ->).
  destruct (dispatch_result env (detect_intent prompt) prompt history)
    as [[[sd c] nj] | e];
    [destruct (insert_error env) as [e |] |];
    try destruct (is_Exception e);
    cbn; repeat split; (lia || discriminate).
Qed.

(** ** Reading the conversation back *)

Section ReadBackFacts.

Variable env : Env.

Lemma map_res_app {A B} (f : A -> res B) (l1 l2 : list A) :
  map_res f (l1 ++ l2) =
    match map_res f l1 with
    | Raise e => Raise e
    | Ok b1 =>
        match map_res f l2 with
        | Raise e => Raise e
        | Ok b2 => Ok (b1 ++ b2)%list
        end
    end.
Proof.
  induction l1 as [|a l1 IH]; cbn [map_res app].
  - destruct (map_res f l2); reflexivity.
  - destruct (f a); [| reflexivity]. rewrite IH.
    destruct (map_res f l1); [| reflexivity].
    destruct (map_res f l2); reflexivity.
Qed.

Lemma to_chat_message_ok (m : ModelMessage) (c : ChatMessage) :
  to_chat_message env m = Ok c ->
  renderable m = true /\ message_type c = "text" /\ structured_data c = None.
Proof.
  intros Hc. destruct (renderable m) eqn:Hm.
  - destruct (to_chat_message_renderable env m Hm) as (c' & Hc' & Hty & Hsd).
    rewrite Hc in Hc'. injection Hc' as <-. now repeat split.
  - destruct (to_chat_message_not_renderable env m Hm) as (e & He).
    rewrite Hc in He. discriminate.
Qed.

Lemma map_res_ok (msgs : list ModelMessage) (chat : list ChatMessage) :
  map_res (to_chat_message env) msgs = Ok chat ->
  length chat = length msgs
  /\ Forall (fun c => structured_data c = None) chat.
Proof.
  revert chat. induction msgs as [|m msgs IH]; intros chat; cbn [map_res].
  - intros [= <-]. split; [reflexivity | constructor].
  - destruct (to_chat_message env m) as [c | e] eqn:Hc; [| discriminate].
    destruct (map_res (to_chat_message env) msgs) as [cs | e];
      [| discriminate].
    intros [= <-]. destruct (IH cs eq_refl) as [Hlen Hall].
    split; [cbn; now rewrite Hlen |].
    constructor; [| exact Hall]. now apply to_chat_message_ok in Hc.
Qed.

Lemma body_lines_chat (chat : list ChatMessage) :
  Forall (fun c => structured_data c = None) chat ->
  body_lines (join nl (map chat_line chat)) = map chat_line chat.
Proof.
  intros Hall. apply body_lines_join; apply Forall_map.
  - eapply Forall_impl; [| exact Hall]. cbv beta.
    intros c Hsd. now apply chat_line_no_newline.
  - apply Forall_forall. intros c _. apply chat_line_not_empty.
Qed.

(** [GET /chat/] fails after an append whenever it failed before it. *)
Lemma get_chat_fails_after_add (w : World) (x : string) (e : exn) :
  fst (get_chat env w) = Raise e ->
  exists e', fst (get_chat env (snd (add_messages env x w))) = Raise e'.
Proof.
  rewrite !get_chat_run, !get_messages_run, add_messages_run.
  destruct (insert_error env) as [ei |]; cbn [fst snd rows].
  - intros H. now exists e.
  - destruct (select_error env) as [es |]; [intros _; now exists es |].
    rewrite select_after_insert, extend_rows_snoc.
    destruct (extend_rows env (select_message_list (rows w)) [])
      as [msgs | e0]; [| intros _; now exists e0].
    destruct (validate_json env x) as [new | ev]; [| intros _; now exists ev].
    rewrite map_res_app.
    destruct (map_res (to_chat_message env) msgs) as [chat | e0];
      [discriminate | intros _; now exists e0].
Qed.

End ReadBackFacts.

(** X11. After a successful POST whose stored bundle parses into
    messages that [to_chat_message] renders, [GET /chat/] returns the
    lines of the earlier conversation followed by the lines of the new
    exchange: one line per stored message, old and new. *)
Theorem post_then_get (env : Env) (prompt : string) (t : table) (tick : nat)
    (history new : list ModelMessage) (sd : option dict) (c new_json : string)
    (old_chat new_chat : list ChatMessage) :
  fst (get_messages env (start t tick)) = Ok history ->
  dispatch_result env (detect_intent prompt) prompt history =
    Ok (sd, c, new_json) ->
  insert_error env = None ->
  validate_json env new_json = Ok new ->
  map_res (to_chat_message env) history = Ok old_chat ->
  map_res (to_chat_message env) new = Ok new_chat ->
  let w' := snd (stream_messages env prompt (start t tick)) in
  fst (get_chat env (start t tick)) = Ok (join nl (map chat_line old_chat))
  /\ fst (get_chat env w') =
       Ok (join nl (map chat_line (old_chat ++ new_chat)%list))
  /\ body_lines (join nl (map chat_line (old_chat ++ new_chat)%list)) =
       (map chat_line old_chat ++ map chat_line new_chat)%list
  /\ length (body_lines
               (join nl (map chat_line (old_chat ++ new_chat)%list))) =
       length history + length new.
Proof.
  intros Hget Hrun Hins Hnew Hold Hnewc w'. subst w'.
  destruct (map_res_ok env _ _ Hold) as [Hlen1 Hsd1].
  destruct (map_res_ok env _ _ Hnewc) as [Hlen2 Hsd2].
  assert (Hlines :
    body_lines (join nl (map chat_line (old_chat ++ new_chat)%list)) =
      (map chat_line old_chat ++ map chat_line new_chat)%list).
  { rewrite body_lines_chat; [apply map_app |].
    apply Forall_app. now split. }
  split; [now rewrite get_chat_run, Hget, Hold |].
  split; [| split; [exact Hlines |]].
  - rewrite get_chat_run.
    assert (Hafter :
      fst (get_messages env
             (snd (stream_messages env prompt (start t tick)))) =
        Ok (history ++ new)%list).
    { rewrite get_messages_run in Hget |- *.
      rewrite stream_messages_run, get_messages_run.
      cbn [fst rows start] in Hget |- *.
      destruct (select_error env); [discriminate |].
      rewrite Hget. cbv zeta. rewrite Hrun, Hins. cbn [snd rows].
      now rewrite select_after_insert, extend_rows_snoc, Hget, Hnew. }
    now rewrite Hafter, map_res_app, Hold, Hnewc.
  - rewrite Hlines, length_app, !length_map. lia.
Qed.

Lemma post_then_get_witness :
  exists body,
    fst (get_chat Demo.healthy
           (snd (stream_messages Demo.healthy "Hello there"
                   (start [(1, "hi")]%Z 0)))) = Ok body
    /\ length (body_lines body) = 4.
Proof.
  destruct (post_then_get Demo.healthy "Hello there" [(1, "hi")]%Z 0
              _ _ None "Hello!" "Hello there" _ _
              eq_refl eq_refl eq_refl eq_refl eq_refl eq_refl)
    as (_ & Hbody & _ & Hlen).
  eexists. split; [exact Hbody | exact Hlen].
Defined.

(** X12. Appending never repairs [GET /chat/]: once it fails on the
    stored conversation, it fails after every further sequence of
    appends. *)
Theorem get_chat_failure_is_permanent (env : Env) (w : World)
    (exchanges : list string) (e : exn) :
  fst (get_chat env w) = Raise e ->
  exists e',
    fst (get_chat env
           (fold_left (fun w x => snd (add_messages env x w)) exchanges w)) =
      Raise e'.
Proof.
  revert w e. induction exchanges as [|x xs IH]; intros w e Hfail;
    cbn [fold_left].
  - now exists e.
  - destruct (get_chat_fails_after_add env w x e Hfail) as (e1 & H1).
    exact (IH _ e1 H1).
Qed.

Lemma get_chat_failure_is_permanent_witness :
  exists e',
    fst (get_chat Demo.healthy
           (fold_left (fun w x => snd (add_messages Demo.healthy x w))
              ["fine"; "good"] (start [(1, "tool")]%Z 0))) = Raise e'.
Proof.
  apply (get_chat_failure_is_permanent Demo.healthy
           (start [(1, "tool")]%Z 0) ["fine"; "good"]
           (UnexpectedModelBehavior
              "Unexpected message type for chat app: <message>")).
  reflexivity.
Defined.

(** X13. [to_chat_message] looks at the kind of the message and at its
    first part only: it succeeds exactly on a request that starts with
    a text user prompt, giving a user turn with that text and the part's
    time stamp, and on a response that starts with a text part, giving
    a model turn with that text and the response's time stamp; the
    parts after the first never show in the result. *)
Theorem to_chat_message_first_part_only (env : Env) (m : ModelMessage)
    (c : ChatMessage) :
  to_chat_message env m = Ok c <->
  (exists s ts rest,
     m = ModelRequest (UserPromptPart (StrContent s) ts :: rest)
     /\ c = {| role := "user"; timestamp := ts; content := s;
               message_type := "text"; structured_data := None |})
  \/ (exists s ts rest,
        m = ModelResponse (TextPart s :: rest) ts
        /\ c = {| role := "model"; timestamp := ts; content := s;
                  message_type := "text"; structured_data := None |}).
Proof.
  split.
  - destruct m as [[|[[s |] ts | s | k] ps] | [|[c0 ts' | s | k] ps] ts];
      cbn; try discriminate; intros [= <-]; [left | right]; eauto.
  - intros [(s & ts & rest & -> & ->) | (s & ts & rest & -> & ->)];
      reflexivity.
Qed.

Lemma to_chat_message_first_part_only_witness :
  to_chat_message Demo.healthy
    (ModelResponse [TextPart "Done."; OtherPart "tool-call"] "t1") =
    Ok {| role := "model"; timestamp := "t1"; content := "Done.";
          message_type := "text"; structured_data := None |}.
Proof.
  apply (proj2 (to_chat_message_first_part_only Demo.healthy _ _)).
  right. now exists "Done.", "t1", [OtherPart "tool-call"].
Defined.

(** ** The wire format *)

Section WireFacts.

(** Induction on JSON values, with the hypothesis for every item of a
    list and every value of a dict. *)
Lemma json_nested_ind (P : json -> Prop) :
  P JNull ->
  (forall b, P (JBool b)) ->
  (forall n, P (JInt n)) ->
  (forall s, P (JStr s)) ->
  (forall items, Forall P items -> P (JList items)) ->
  (forall fields, Forall (fun kv => P (snd kv)) fields -> P (JDict fields)) ->
  forall v, P v.
Proof.
  intros Hnull Hbool Hint Hstr Hlist Hdict.
  fix IH 1. intros [| b | n | s | items | fields].
  - exact Hnull.
  - apply Hbool.
  - apply Hint.
  - apply Hstr.
  - apply Hlist. induction items as [|x items IHitems];
      constructor; [apply IH | exact IHitems].
  - apply Hdict. induction fields as [|[k x] fields IHfields];
      constructor; [apply IH | exact IHfields].
Qed.

Lemma str_app_assoc (a b c : string) : (a ++ b) ++ c = a ++ b ++ c.
Proof. induction a as [|x a IH]; cbn; [reflexivity | now rewrite IH]. Qed.

Lemma printable_app (a b : string) :
  printable (a ++ b) = printable a && printable b.
Proof. apply all_chars_app. Qed.

Lemma escape_char_printable (c : ascii) : printable (escape_char c) = true.
Proof. destruct c as [[] [] [] [] [] [] [] []]; reflexivity. Qed.

Lemma escape_printable (s : string) : printable (escape s) = true.
Proof.
  induction s as [|c s IH]; [reflexivity |]. cbn [escape].
  now rewrite printable_app, escape_char_printable, IH.
Qed.

Lemma quote_printable (s : string) : printable (quote s) = true.
Proof. unfold quote. now rewrite !printable_app, escape_printable. Qed.

Lemma string_of_uint_printable (d : Decimal.uint) :
  printable (NilEmpty.string_of_uint d) = true.
Proof. induction d; cbn; trivial. Qed.

Lemma str_of_int_printable (n : Z) : printable (str_of_int n) = true.
Proof.
  unfold str_of_int, NilZero.string_of_int, NilZero.string_of_uint.
  destruct (Z.to_int n) as [d | d]; destruct d;
    try reflexivity;
    try apply (string_of_uint_printable (Decimal.D0 d));
    try apply (string_of_uint_printable (Decimal.D1 d));
    try apply (string_of_uint_printable (Decimal.D2 d));
    try apply (string_of_uint_printable (Decimal.D3 d));
    try apply (string_of_uint_printable (Decimal.D4 d));
    try apply (string_of_uint_printable (Decimal.D5 d));
    try apply (string_of_uint_printable (Decimal.D6 d));
    try apply (string_of_uint_printable (Decimal.D7 d));
    try apply (string_of_uint_printable (Decimal.D8 d));
    try apply (string_of_uint_printable (Decimal.D9 d)).
Qed.

Lemma join_printable (sep : string) (parts : list string) :
  printable sep = true ->
  Forall (fun p => printable p = true) parts ->
  printable (join sep parts) = true.
Proof.
  intros Hsep Hall. induction Hall as [|p parts Hp Hall IH]; [reflexivity |].
  destruct parts as [|q parts]; [exact Hp |].
  change (join sep (p :: q :: parts)) with (p ++ sep ++ join sep (q :: parts)).
  now rewrite !printable_app, Hp, Hsep, IH.
Qed.

Lemma dumps_printable (v : json) : printable (dumps v) = true.
Proof.
  induction v as [| [] | n | s | items IH | fields IH] using json_nested_ind;
    try reflexivity.
  - apply str_of_int_printable.
  - apply quote_printable.
  - cbn [dumps]. rewrite !printable_app.
    rewrite join_printable; [reflexivity | reflexivity |].
    apply Forall_map. exact IH.
  - cbn [dumps]. rewrite !printable_app.
    rewrite join_printable; [reflexivity | reflexivity |].
    apply Forall_map. eapply Forall_impl; [| exact IH]. cbv beta.
    intros [k x] Hx. cbn [snd] in Hx.
    now rewrite !printable_app, quote_printable, Hx.
Qed.

Lemma printable_no_newline (s : string) :
  printable s = true -> no_newline s = true.
Proof.
  unfold printable, no_newline.
  induction s as [|c s IH]; [reflexivity |]. cbn [all_chars].
  rewrite !andb_true_iff. intros [Hc Hs]. split; [| now apply IH].
  revert Hc. destruct c as [[] [] [] [] [] [] [] []]; vm_compute;
    intuition congruence.
Qed.

Lemma split_nl_framed (lines : list string) :
  Forall (fun l => no_newline l = true) lines ->
  fst (split_nl (fold_right (fun l body => (l ++ nl) ++ body) "" lines))
    :: snd (split_nl (fold_right (fun l body => (l ++ nl) ++ body) "" lines))
  = (lines ++ [""])%list.
Proof.
  intros Hall. induction Hall as [|l lines Hl Hall IH]; [reflexivity |].
  cbn [fold_right app]. rewrite str_app_assoc, (split_nl_app _ _ Hl).
  cbn [fst snd]. now rewrite IH.
Qed.

End WireFacts.

(** X14. The body of a [POST /chat/] response is newline-delimited
    JSON in printable ASCII: every yielded turn, structured data
    included, is serialized to characters in the range 32..126, so a
    line never holds a raw newline or a character outside ASCII, and
    cutting the body at the newlines gives back exactly one line per
    turn, followed by the empty rest after the last newline. *)
Theorem post_body_is_ascii_ndjson (env : Env) (prompt : string) (t : table)
    (tick : nat) :
  let tr := trace (snd (stream_messages env prompt (start t tick))) in
  Forall (fun m => printable (chat_line m) = true) (yielded tr)
  /\ fst (split_nl (post_chat_body tr)) :: snd (split_nl (post_chat_body tr))
     = (map chat_line (yielded tr) ++ [""])%list.
Proof.
  intros tr.
  assert (Hall : Forall (fun m => printable (chat_line m) = true) (yielded tr))
    by (apply Forall_forall; intros m _; apply dumps_printable).
  split; [exact Hall |].
  unfold post_chat_body, encode_line.
  assert (Hfold : forall ms,
    fold_right (fun m body => (chat_line m ++ nl) ++ body) "" ms =
    fold_right (fun l body => (l ++ nl) ++ body) "" (map chat_line ms)).
  { induction ms as [|m ms IH]; cbn [fold_right map];
      [reflexivity | now rewrite IH]. }
  rewrite Hfold. apply split_nl_framed.
  apply Forall_map. eapply Forall_impl; [| exact Hall]. cbv beta.
  intros m. apply printable_no_newline.
Qed.

Section LosslessFacts.

Lemma unescape_head_escape_char (c : ascii) (x : string) :
  unescape_head (escape_char c ++ x) = Some (c, x).
Proof. destruct c as [[] [] [] [] [] [] [] []]; reflexivity. Qed.

(** An escaped string followed by the closing quote determines the
    string and what comes after the quote. *)
Lemma escape_delimited (a b x y : string) :
  escape a ++ dquote ++ x = escape b ++ dquote ++ y -> a = b /\ x = y.
Proof.
  revert b. induction a as [|c a IH]; intros [|d b] H.
  - cbn in H. now injection H.
  - cbn [escape] in H. rewrite str_app_assoc in H.
    apply (f_equal unescape_head) in H.
    rewrite unescape_head_escape_char in H. discriminate H.
  - cbn [escape] in H. rewrite str_app_assoc in H.
    apply (f_equal unescape_head) in H.
    rewrite unescape_head_escape_char in H. discriminate H.
  - cbn [escape] in H. rewrite !str_app_assoc in H.
    apply (f_equal unescape_head) in H.
    rewrite !unescape_head_escape_char in H.
    injection H as -> H. destruct (IH b H) as [-> ->]. now split.
Qed.

End LosslessFacts.

(** X15. The line of a turn without structured data determines the
    turn: if the line of such a turn is also the line of some turn, the
    two turns are the same, field by field.  Escaping loses nothing,
    and no text turn can be taken for a structured one. *)
Theorem chat_line_determines_text_turn (m1 m2 : ChatMessage) :
  structured_data m1 = None ->
  chat_line m1 = chat_line m2 ->
  m1 = m2.
Proof.
  destruct m1 as [r1 t1 c1 y1 s1], m2 as [r2 t2 c2 y2 s2].
  cbn [structured_data]. intros -> H.
  unfold chat_line, chat_dict in H.
  cbn [role timestamp content message_type structured_data dumps map join]
    in H.
  unfold quote in H. rewrite !str_app_assoc in H. cbn in H.
  repeat injection H as H.
  apply escape_delimited in H. destruct H as [-> H].
  repeat injection H as H.
  apply escape_delimited in H. destruct H as [-> H].
  repeat injection H as H.
  apply escape_delimited in H. destruct H as [-> H].
  repeat injection H as H.
  apply escape_delimited in H. destruct H as [-> H].
  repeat injection H as H.
  destruct s2 as [d |]; [| reflexivity].
  cbn in H. discriminate H.
Qed.

Lemma chat_line_determines_text_turn_witness :
  error_message "t0" Demo.ConnectError =
    {| role := "model"; timestamp := "t0";
       content := "Sorry, I encountered an error: connection refused";
       message_type := "text"; structured_data := None |}.
Proof.
  apply chat_line_determines_text_turn; reflexivity.
Defined.


Lemma stream_is_stamped_in_order_witness :
  2 <= length (yielded (trace (snd (stream_messages Demo.healthy "hi"
                                      (start [] 0))))).
Proof.
  destruct (stream_is_stamped_in_order Demo.healthy "hi" [] 0)
    as (_ & _ & _ & Hok).
  apply Hok. reflexivity.
Defined.

(** ** More on reading *)

Lemma extend_rows_stops_at_bad_row (env : Env) (good rest : list string)
    (bad : string) (e : exn) (decoded : list (list ModelMessage))
    (acc : list ModelMessage) :
  Forall2 (fun r d => validate_json env r = Ok d) good decoded ->
  validate_json env bad = Raise e ->
  extend_rows env (good ++ bad :: rest) acc = Raise e.
Proof.
  intros Hgood Hbad. revert acc.
  induction Hgood as [|r d good decoded Hr Hgood IH]; intros acc;
    cbn [app extend_rows].
  - now rewrite Hbad.
  - rewrite Hr. apply IH.
Qed.

(** X16. [get_messages] fails fast: when the rows before some row parse
    and that row does not, the read fails with that row's error,
    whatever the rows after it hold; nothing of the rows that did parse
    is returned. *)
Theorem get_messages_reports_first_bad_row (env : Env) (w : World)
    (good rest : list string) (bad : string) (e : exn)
    (decoded : list (list ModelMessage)) :
  select_error env = None ->
  select_message_list (rows w) = (good ++ bad :: rest)%list ->
  Forall2 (fun r d => validate_json env r = Ok d) good decoded ->
  validate_json env bad = Raise e ->
  fst (get_messages env w) = Raise e
  /\ fst (get_chat env w) = Raise e.
Proof.
  intros Hsel Hrows Hgood Hbad.
  assert (Hget : fst (get_messages env w) = Raise e).
  { rewrite get_messages_run, Hsel, Hrows. cbn [fst].
    now apply (extend_rows_stops_at_bad_row env good rest bad e decoded). }
  split; [exact Hget |]. now rewrite get_chat_run, Hget.
Qed.

Lemma get_messages_reports_first_bad_row_witness :
  fst (get_messages Demo.healthy
         (start [(1, "a"); (3, "tool"); (2, "corrupt")]%Z 0)) =
    Raise Demo.ValidationError
  /\ fst (get_chat Demo.healthy
            (start [(1, "a"); (3, "tool"); (2, "corrupt")]%Z 0)) =
       Raise Demo.ValidationError.
Proof.
  apply (get_messages_reports_first_bad_row Demo.healthy
           (start [(1, "a"); (3, "tool"); (2, "corrupt")]%Z 0)
           ["a"] ["tool"] "corrupt" Demo.ValidationError
           [ [ ModelRequest [UserPromptPart (StrContent "a") "t0"];
               ModelResponse [TextPart "re: a"] "t1" ] ]);
    try reflexivity.
  repeat constructor.
Defined.

(** X17. [GET /chat/] only reads: whether it answers or fails, it runs
    one SELECT and nothing else; it yields nothing, calls no agent,
    inserts nothing, does not read the clock, and leaves the table as
    it was, so that asking twice gives the same answer. *)
Theorem get_chat_only_reads (env : Env) (w : World) :
  let w' := snd (get_chat env w) in
  trace w' = (trace w ++ [EvSelect])%list
  /\ rows w' = rows w
  /\ ticks w' = ticks w
  /\ fst (get_chat env w') = fst (get_chat env w).
Proof.
  intros w'. subst w'.
  assert (Hw : snd (get_chat env w) =
               {| rows := rows w; ticks := ticks w;
                  trace := (trace w ++ [EvSelect])%list |}).
  { unfold get_chat, bind, lift, ret. rewrite get_messages_run.
    destruct (match select_error env with
              | Some e => Raise e
              | None => extend_rows env (select_message_list (rows w)) []
              end) as [msgs | e]; [| reflexivity].
    destruct (map_res (to_chat_message env) msgs); reflexivity. }
  rewrite Hw. cbn [trace rows ticks]. repeat split.
  now rewrite !get_chat_run, !get_messages_run.
Qed.
